(** * Depression-detector: the client side of the job protocol

    A shallow embedding of the React components that submit work to the
    analysis backend and fetch the report:

    - [DataUploadTxt]  (text-upload dialog, with [PROMPT_OPTIONS]),
    - [DepressionDetectorForm]  (text form: submit, then poll [/api/job/<id>]),
    - [DataUpload] and [ContactForm]  (file-upload dialog and its form),
    - [JobOrchestrator]  (the server's job store, of which only the
      description is available).

    Also embedded are the pages that keep their data in Firestore:

    - [MessageForm] and [FileStoreForm]  (the two [ContactForm] components
      that write to the [submissions] collection),
    - [CSVPreview] and [AdminDashboard]  (the list of stored submissions).

    An [async] function is a computation that performs a finite sequence of
    observable events (requests, timer waits, console output, downloads,
    alerts) and then returns, throws, or runs out of fuel.  The answers of
    the outside world (the server's replies, the clock) are read from an
    environment record. *)

From stdpp Require Import base strings list gmap pretty.
From Stdlib Require Import Lia.

Local Open Scope string_scope.
Set Warnings "-register-all".

(** ** JavaScript values and strings *)

(** Values obtained from [response.json()].  Numbers are integers only and
    arrays are left out: the components read the properties [error],
    [status], [progress] and [job_id] of the parsed body and nothing else.
    Characters of a [string] stand for UTF-16 code units. *)
Inductive JsVal : Type :=
| VUndefined
| VNull
| VBool (b : bool)
| VNum (z : Z)
| VStr (s : string)
| VObj (fields : list (string * JsVal)).

(** An [Error] object (or any thrown exception); the code reads its
    [message] only. *)
Record JsError : Type := mkError { message : string }.

(** [s.startsWith(p)] *)
Definition startsWith (s p : string) : bool := String.prefix p s.

(** [s.includes(sub)]: [sub] occurs in [s] at some position. *)
Fixpoint includes (s sub : string) : bool :=
  String.prefix sub s ||
  match s with
  | EmptyString => false
  | String _ s' => includes s' sub
  end.

(** [s.substring(0, n)] *)
Definition substring0 (n : nat) (s : string) : string := String.substring 0 n s.

(** A string holds the UTF-8 bytes of its text, and JavaScript counts a
    text in UTF-16 code units.  A byte below 128 is a character of one
    unit; a byte from 128 to 191 continues a character and counts for
    nothing; a byte from 192 to 239 starts a character of two or three
    bytes, of one unit; a byte from 240 starts a character of four bytes,
    which is outside the basic plane and takes two units. *)
Definition code_units (a : Ascii.ascii) : nat :=
  let n := Ascii.N_of_ascii a in
  if (n <? 128)%N then 1
  else if (n <? 192)%N then 0
  else if (n <? 240)%N then 1
  else 2.

(** [s.length] *)
Fixpoint js_length (s : string) : nat :=
  match s with
  | EmptyString => 0
  | String a s' => code_units a + js_length s'
  end.

(** ToString, as applied by template literals and by [new Error(v)]. *)
Definition to_string (v : JsVal) : string :=
  match v with
  | VUndefined => "undefined"
  | VNull => "null"
  | VBool true => "true"
  | VBool false => "false"
  | VNum z => pretty z
  | VStr s => s
  | VObj _ => "[object Object]"
  end.

(** ToBoolean, as applied by [||] and [&&]. *)
Definition truthy (v : JsVal) : bool :=
  match v with
  | VUndefined | VNull => false
  | VBool b => b
  | VNum z => negb (z =? 0)%Z
  | VStr s => negb (String.eqb s "")
  | VObj _ => true
  end.

(** [v === "..."] against a string literal. *)
Definition strict_eq_str (v : JsVal) (lit : string) : bool :=
  match v with
  | VStr s => String.eqb s lit
  | _ => false
  end.

Fixpoint assoc (k : string) (fields : list (string * JsVal)) : option JsVal :=
  match fields with
  | [] => None
  | (k', v) :: rest => if String.eqb k k' then Some v else assoc k rest
  end.

(** ** Events, outcomes and the [Async] monad *)

Definition Blob : Type := list Byte.byte.

Record File : Type := mkFile { name : string; content : Blob }.

Inductive FormEntry : Type :=
| FText (s : string)
| FFile (f : File).

(** A [FormData] object: the appended (name, value) pairs, in order. *)
Definition FormData : Type := list (string * FormEntry).

Inductive Method : Type := GET | POST.

Inductive Event : Type :=
| Delay (ms : nat)
| Request (m : Method) (url : string) (body : option FormData)
| ConsoleLog (msg : string)
| ConsoleError (msg : string)
| Alert (msg : string)
| Download (filename : string) (bytes : Blob)
| FormReset
| OnSuccess.

Inductive Outcome (A : Type) : Type :=
| Returned (a : A)
| Thrown (e : JsError)
| OutOfFuel.
Arguments Returned {A} a.
Arguments Thrown {A} e.
Arguments OutOfFuel {A}.

Definition Async (A : Type) : Type := list Event * Outcome A.

Definition ret {A} (a : A) : Async A := ([], Returned a).

Definition throw {A} (e : JsError) : Async A := ([], Thrown e).

Definition emit (ev : Event) : Async unit := ([ev], Returned tt).

Definition bind {A B} (m : Async A) (k : A -> Async B) : Async B :=
  match m with
  | (t, Returned a) => let '(t', o) := k a in ((t ++ t')%list, o)
  | (t, Thrown e) => (t, Thrown e)
  | (t, OutOfFuel) => (t, OutOfFuel)
  end.

(** [try { m } catch (e) { h e }]; running out of fuel is not catchable. *)
Definition try_catch {A} (m : Async A) (h : JsError -> Async A) : Async A :=
  match m with
  | (t, Thrown e) => let '(t', o) := h e in ((t ++ t')%list, o)
  | other => other
  end.

Notation "'let*' x ':=' m 'in' k" := (bind m (fun x => k))
  (at level 10, x name, m at level 100, k at level 200).
Notation "m >> k" := (bind m (fun _ => k))
  (at level 90, right associativity).

Definition events {A} (m : Async A) : list Event := fst m.
Definition outcome {A} (m : Async A) : Outcome A := snd m.

Definition console_log (msg : string) : Async unit := emit (ConsoleLog msg).
Definition console_error (msg : string) : Async unit := emit (ConsoleError msg).
Definition alert (msg : string) : Async unit := emit (Alert msg).

(** [v.p]: reading a property of [undefined] or [null] throws a TypeError
    (message text as V8 words it); a property that is not there, or any of
    the four properties read here on a primitive, is [undefined]. *)
Definition get_prop (v : JsVal) (p : string) : Async JsVal :=
  match v with
  | VUndefined =>
      throw (mkError ("Cannot read properties of undefined (reading '" ++ p ++ "')"))
  | VNull =>
      throw (mkError ("Cannot read properties of null (reading '" ++ p ++ "')"))
  | VObj fields => ret (default VUndefined (assoc p fields))
  | _ => ret VUndefined
  end.

(** ** HTTP replies *)

(** What an awaited promise of the outside world settles to. *)
Inductive Settled (A : Type) : Type :=
| Fulfilled (a : A)
| Rejected (e : JsError).
Arguments Fulfilled {A} a.
Arguments Rejected {A} e.

Definition await {A} (p : Settled A) : Async A :=
  match p with
  | Fulfilled a => ret a
  | Rejected e => throw e
  end.

Record Response : Type := mkResponse {
  status : nat;                       (* response.status *)
  statusText : string;                (* response.statusText *)
  content_type : option string;       (* response.headers.get('content-type') *)
  json : Settled JsVal;               (* await response.json() *)
  blob : Settled Blob                 (* await response.blob() *)
}.

(** [response.ok] *)
Definition ok (r : Response) : bool := (200 <=? status r)%nat && (status r <=? 299)%nat.

(** [await fetch(url, { method, body })], answered by [reply]. *)
Definition fetch (reply : Settled Response) (m : Method) (url : string)
    (body : option FormData) : Async Response :=
  emit (Request m url body) >> await reply.

(** ** react-hook-form: the built-in rules used by the forms *)

(** The library is a dependency, not part of the sources.  Its built-in
    rules are modelled as its [validateField] applies them to a field that
    holds a string: [required] rejects the empty string exactly (the value
    is compared with [''], it is not trimmed), [minLength] rejects a value
    whose [length], in UTF-16 code units, is below the bound; [required] is
    checked first and the first failing rule gives the field's message. *)
Module RHF.

Record Rules : Type := mkRules {
  required : option string;              (* required: <message> *)
  minLength : option (nat * string)      (* minLength: { value, message } *)
}.

Definition validateField (rules : Rules) (value : string) : option string :=
  match required rules with
  | Some msg => if String.eqb value "" then Some msg else
      match minLength rules with
      | Some (n, msg') => if (js_length value <? n)%nat then Some msg' else None
      | None => None
      end
  | None =>
      match minLength rules with
      | Some (n, msg') =>
          if negb (String.eqb value "") && (js_length value <? n)%nat
          then Some msg' else None
      | None => None
      end
  end.

(** What [form.handleSubmit(onSubmit)] does with the field's value: the
    handler runs only when no rule fails; otherwise the message is put
    under the field and nothing else happens. *)
Inductive Submission : Type :=
| Invalid (fieldMessage : string)
| Handled (run : Async unit).

Definition handleSubmit (rules : Rules) (onSubmit : string -> Async unit)
    (value : string) : Submission :=
  match validateField rules value with
  | Some msg => Invalid msg
  | None => Handled (onSubmit value)
  end.

Definition events_of (s : Submission) : list Event :=
  match s with
  | Invalid _ => []
  | Handled run => events run
  end.

End RHF.

(** ** DepressionDetectorForm (the text form) *)

Module DepressionDetectorForm.

(** The props the parent passes.  The component's parameter list is
    [{ onSuccess, llm }]: a [prompt] prop is passed by [DataUploadTxt]
    but it is not among the names the component binds. *)
Record Props : Type := mkProps {
  onSuccess : bool;       (* whether a callback was given *)
  llm : string;
  prompt : string
}.

(** The outside world, as far as [onSubmit] consults it. *)
Record Env : Type := mkEnv {
  VITE_API_URL : option string;           (* import.meta.env.VITE_API_URL *)
  upload_reply : Settled Response;        (* answer to POST /api/upload *)
  status_reply : nat -> Settled Response  (* answer to the poll numbered pollCount *)
}.

(** [import.meta.env.VITE_API_URL || "http://localhost:5000"] *)
Definition API_URL (env : Env) : string :=
  match VITE_API_URL env with
  | Some u => if String.eqb u "" then "http://localhost:5000" else u
  | None => "http://localhost:5000"
  end.

Definition maxPolls : nat := 600.

Record LoopState : Type := mkLoop { isComplete : bool; pollCount : nat }.

(** [jobId.substring(0, 8)]; [jobId] is whatever [uploadData.job_id] was. *)
Definition jobId_substring (jobId : JsVal) : Async string :=
  match jobId with
  | VStr s => ret (substring0 8 s)
  | VUndefined =>
      throw (mkError "Cannot read properties of undefined (reading 'substring')")
  | VNull =>
      throw (mkError "Cannot read properties of null (reading 'substring')")
  | _ => throw (mkError "jobId.substring is not a function")
  end.

(** [contentType && contentType.includes('application/pdf')] *)
Definition is_pdf (contentType : option string) : bool :=
  match contentType with
  | Some ct => negb (String.eqb ct "") && includes ct "application/pdf"
  | None => false
  end.

(** The [try] block of one loop iteration; the result tells whether
    [isComplete = true] was executed. *)
Definition poll_attempt (env : Env) (jobId : JsVal) (pollCount : nat) : Async bool :=
  let* short := jobId_substring jobId in
  console_log ("[Poll " ++ pretty pollCount ++ "] Checking status for job " ++ short ++ "...") >>
  let* statusResponse :=
    fetch (status_reply env pollCount) GET
          (API_URL env ++ "/api/job/" ++ to_string jobId) None in
  if negb (ok statusResponse) then
    let* errorData := await (json statusResponse) in
    let* failed :=
      if (status statusResponse =? 400)%nat then
        let* st := get_prop errorData "status" in ret (strict_eq_str st "error")
      else ret false in
    if failed then
      (* Job failed permanently - stop polling *)
      let* err := get_prop errorData "error" in
      throw (mkError ("Processing failed: " ++ to_string err))
    else
      (* Temporary error - keep polling *)
      throw (mkError "Temporary polling error")
  else
    (* Success response - could be PDF or JSON status *)
    let contentType := content_type statusResponse in
    if is_pdf contentType then
      console_log "✓ PDF ready! Downloading..." >>
      let* blob := await (blob statusResponse) in
      let* short' := jobId_substring jobId in
      emit (Download ("report_" ++ short' ++ ".pdf") blob) >>
      console_log "✓ Download complete!" >>
      ret true
    else
      (* Still processing - parse JSON status *)
      let* statusData := await (json statusResponse) in
      let* st := get_prop statusData "status" in
      let* pr := get_prop statusData "progress" in
      console_log ("Status: " ++ to_string st ++ " | Progress: " ++ to_string pr ++ "%") >>
      ret false.

(** The body of the [while] loop: wait one second, count the poll, try. *)
Definition poll_iteration (env : Env) (jobId : JsVal) (st : LoopState) : Async LoopState :=
  emit (Delay 1000) >>
  let pollCount' := S (pollCount st) in
  try_catch
    (let* done := poll_attempt env jobId pollCount' in
     ret (mkLoop (done || isComplete st) pollCount'))
    (fun pollError =>
       console_error ("Poll error: " ++ message pollError) >>
       if startsWith (message pollError) "Processing failed" then
         throw pollError (* stop everything *)
       else ret (mkLoop (isComplete st) pollCount')).

(** [while (!isComplete && pollCount < maxPolls) { ... }] *)
Fixpoint while_loop (fuel : nat) (env : Env) (jobId : JsVal) (st : LoopState)
    : Async LoopState :=
  if negb (isComplete st) && (pollCount st <? maxPolls)%nat then
    match fuel with
    | O => ([], OutOfFuel)
    | S fuel' =>
        let* st' := poll_iteration env jobId st in
        while_loop fuel' env jobId st'
    end
  else ret st.

(** The polling loop and the statements after it, for the job id read
    from the reply to the upload. *)
Definition poll_for_report (props : Props) (env : Env) (jobId : JsVal) : Async unit :=
  let* st := while_loop maxPolls env jobId (mkLoop false 0) in
  (if negb (isComplete st) then
     throw (mkError "Processing timeout - took longer than 10 minutes")
   else ret tt) >>
  emit FormReset >>
  alert "✓ Report generated and downloaded successfully!" >>
  if onSuccess props then emit OnSuccess else ret tt.

Definition onSubmit (props : Props) (env : Env) (text : string) : Async unit :=
  try_catch
    (let formData : FormData := [("llm", FText (llm props)); ("text", FText text)] in
     (* Send to backend - returns immediately with job ID *)
     console_log "Submitting text..." >>
     let* uploadResponse :=
       fetch (upload_reply env) POST (API_URL env ++ "/api/upload") (Some formData) in
     (if negb (ok uploadResponse) then
        let* errorData := await (json uploadResponse) in
        let* err := get_prop errorData "error" in
        throw (mkError (if truthy err then to_string err
                        else "Upload failed: " ++ statusText uploadResponse))
      else ret tt) >>
     let* uploadData := await (json uploadResponse) in
     let* jobId := get_prop uploadData "job_id" in
     console_log ("✓ Job started: " ++ to_string jobId) >>
     poll_for_report props env jobId)
    (fun error =>
       console_error ("Error: " ++ message error) >>
       alert ("❌ Error: " ++ message error)).

(** The [rules] of the form's only field, [text]. *)
Definition text_rules : RHF.Rules :=
  RHF.mkRules (Some "Please enter text to analyze")
              (Some (10, "Text must be at least 10 characters")).

(** [form.handleSubmit(onSubmit)] *)
Definition submit (props : Props) (env : Env) (text : string) : RHF.Submission :=
  RHF.handleSubmit text_rules (onSubmit props env) text.

End DepressionDetectorForm.

(** ** DataUploadTxt (the text-upload dialog) *)

Module DataUploadTxt.

Record PromptOption : Type := mkOption { value : string; label : string }.

Definition PROMPT_OPTIONS : list PromptOption := [
  mkOption "simple" "Simple (Binary Classification)";
  mkOption "structured" "Structured (Checklist)";
  mkOption "feature_extraction" "Feature Extraction (Metrics)";
  mkOption "chain_of_thought" "Chain-of-Thought (Reasoning)";
  mkOption "few_shot" "Few-Shot (Example Based)";
  mkOption "free_form" "Free-Form (Narrative)"
].

(** The argument of [setSelectedLLM] in each item of the model menu. *)
Definition MODEL_ITEMS : list string :=
  ["Gemini"; "LLaMA"; "ChatGPT"; "Kimi"; "Qwen"; "Compound"].

(** The three [useState] cells. *)
Record State : Type := mkState {
  open : bool;
  selectedLLM : string;
  selectedPrompt : string
}.

Definition initial : State := mkState false "Gemini" "simple".

(** What the user can do in the dialog.  The items of the analysis-type
    menu are [PROMPT_OPTIONS.map(...)]: there is one item per entry, and
    the item at index [i] calls [setSelectedPrompt] with that entry's
    [value]. *)
Inductive Action : Type :=
| OpenChange (b : bool)
| ClickModel (i : nat)
| ClickPrompt (i : nat)
| FormSucceeded.

Definition step (s : State) (a : Action) : State :=
  match a with
  | OpenChange b => mkState b (selectedLLM s) (selectedPrompt s)
  | ClickModel i =>
      match MODEL_ITEMS !! i with
      | Some m => mkState (open s) m (selectedPrompt s)
      | None => s
      end
  | ClickPrompt i =>
      match PROMPT_OPTIONS !! i with
      | Some o => mkState (open s) (selectedLLM s) (value o)
      | None => s
      end
  | FormSucceeded => mkState false (selectedLLM s) (selectedPrompt s)
  end.

Definition run (actions : list Action) : State := foldl step initial actions.

(** The labels of the rendered analysis-type items. *)
Definition menu_labels : list string := map label PROMPT_OPTIONS.

(** [PROMPT_OPTIONS.find(p => p.value === selectedPrompt)?.label] *)
Definition trigger_label (s : State) : option string :=
  label <$> find (fun p => String.eqb (value p) (selectedPrompt s)) PROMPT_OPTIONS.

(** [<ContactForm onSuccess={...} llm={selectedLLM} prompt={selectedPrompt} />],
    where [ContactForm] is the default export of [../ContactFormTxt]. *)
Definition form_props (s : State) : DepressionDetectorForm.Props :=
  DepressionDetectorForm.mkProps true (selectedLLM s) (selectedPrompt s).

(** Pressing the form's submit button in the dialog. *)
Definition submit (s : State) (env : DepressionDetectorForm.Env) (text : string)
    : RHF.Submission :=
  DepressionDetectorForm.submit (form_props s) env text.

End DataUploadTxt.

(** ** ContactForm (the file form) *)

Module ContactForm.

(** The props the parent passes; the component's parameter list is
    [{ onSuccess }]. *)
Record Props : Type := mkProps {
  onSuccess : bool;
  llm : string
}.

Record Env : Type := mkEnv {
  upload_reply : Settled Response;     (* answer to POST /api/upload *)
  now : N                              (* Date.now() *)
}.

Definition onSubmit (props : Props) (env : Env) (file : option File) : Async unit :=
  try_catch
    (match file with
     | None => alert "Please select a file"
     | Some file =>
         console_log ("Processing " ++ name file ++ "...") >>
         (* Create FormData *)
         let formData : FormData := [("file", FFile file)] in
         (* Send to backend for processing *)
         let* response :=
           fetch (upload_reply env) POST "http://localhost:5000/api/upload"
                 (Some formData) in
         (if negb (ok response) then
            let* errorData := await (json response) in
            let* err := get_prop errorData "error" in
            throw (mkError (if truthy err then to_string err
                            else "Processing failed: " ++ statusText response))
          else ret tt) >>
         (* Download the PDF report *)
         let* blob := await (blob response) in
         emit (Download ("report_" ++ pretty (now env) ++ ".pdf") blob) >>
         emit FormReset >>
         alert "Report generated and downloaded successfully!" >>
         if onSuccess props then emit OnSuccess else ret tt
     end)
    (fun error =>
       console_error ("Error: " ++ message error) >>
       alert ("Error: " ++ message error)).

(** [rules={{ required: "Please select a file to analyze" }}] on a field
    whose value is a [File] or [null]. *)
Definition submit (props : Props) (env : Env) (file : option File) : RHF.Submission :=
  match file with
  | None => RHF.Invalid "Please select a file to analyze"
  | Some f => RHF.Handled (onSubmit props env (Some f))
  end.

End ContactForm.

(** ** DataUpload (the file-upload dialog) *)

Module DataUpload.

Definition MODEL_ITEMS : list string :=
  ["Gemini"; "LLaMA"; "ChatGPT"; "Kimi"; "Qwen"; "Compound"].

Record State : Type := mkState { open : bool; selectedLLM : string }.

Definition initial : State := mkState false "Gemini".

Inductive Action : Type :=
| OpenChange (b : bool)
| ClickModel (i : nat)
| FormSucceeded.

Definition step (s : State) (a : Action) : State :=
  match a with
  | OpenChange b => mkState b (selectedLLM s)
  | ClickModel i =>
      match MODEL_ITEMS !! i with
      | Some m => mkState (open s) m
      | None => s
      end
  | FormSucceeded => mkState false (selectedLLM s)
  end.

Definition run (actions : list Action) : State := foldl step initial actions.

(** [<ContactForm onSuccess={() => setOpen(false)} llm={selectedLLM} />] *)
Definition form_props (s : State) : ContactForm.Props :=
  ContactForm.mkProps true (selectedLLM s).

Definition submit (s : State) (env : ContactForm.Env) (file : option File)
    : RHF.Submission :=
  ContactForm.submit (form_props s) env file.

End DataUpload.

(** ** JobOrchestrator (server side) *)

Module JobOrchestrator.

Inductive Status : Type := pending | running | complete | error.

Inductive FailureReason : Type :=
| BackendUnavailable
| MalformedResponse
| UnsupportedStrategy
| UnknownProvider
| ReportGenerationError.

Record Result : Type := mkResult { analysis : string; report : Blob }.

Record Failure : Type := mkFailure { reason : FailureReason; text : string }.

(** Modelled from the spec: the Job record of the data model (section 3);
    the server's job store and its handlers are not among the sources.
    The [id] is the key under which the store holds the job. *)
Record Job : Type := mkJob {
  status : Status;
  progress : nat;
  provider : string;
  promptStrategy : string;
  result : option Result;
  failure : option Failure;      (* the Job's [error] field *)
  createdAt : N;
  completedAt : option N
}.

Definition terminal (s : Status) : bool :=
  match s with
  | complete | error => true
  | pending | running => false
  end.

Record JobView : Type := mkView {
  view_status : Status;
  view_progress : nat;
  view_result : option Result;
  view_error : option Failure
}.

Inductive NotFound : Type := not_found.

Inductive ValidationError : Type := validation_error.

(** Modelled from the spec: the six identifiers of the prompt strategy
    catalog (section 3). *)
Definition STRATEGIES : list string :=
  ["simple"; "structured"; "feature_extraction"; "chain_of_thought";
   "few_shot"; "free_form"].

(** Modelled from the spec: the state the Orchestrator owns.  [registry]
    holds the provider names, fixed at process start; [jobs] the jobs
    whose lifetime has not ended; [issued] every id generated so far, by
    which a new id is made unique. *)
Record Orchestrator : Type := mkOrchestrator {
  registry : list string;
  jobs : gmap string Job;
  issued : gset string
}.

(** The Orchestrator at process start, with its registry and no job. *)
Definition start (providers : list string) : Orchestrator :=
  mkOrchestrator providers ∅ ∅.

(** Modelled from the spec: [submit(inputText, providerName,
    promptStrategy) -> JobId] checks that the provider and the strategy
    are known and fails with [ValidationError] otherwise; it creates a
    job in state [pending] under a new id and returns the id (section
    4.4).  The execution it schedules is the later events [Begin],
    [Progress] and [Finish] of the job. *)
Definition submit (o : Orchestrator) (inputText providerName strategy : string)
    (now : N) : (ValidationError + string) * Orchestrator :=
  if bool_decide (providerName ∈ registry o) && bool_decide (strategy ∈ STRATEGIES)
  then
    let id := fresh (issued o) in
    (inr id,
     mkOrchestrator (registry o)
       (<[id := mkJob pending 0 providerName strategy None None now None]> (jobs o))
       ({[id]} ∪ issued o))
  else (inl validation_error, o).

(** Modelled from the spec: what [getStatus] shows of a job, its status
    and progress, a result only when the status is [complete] and an
    error only when it is [error] (sections 4.4 and 8). *)
Definition view_of (j : Job) : JobView :=
  mkView (status j) (progress j)
         (match status j with complete => result j | _ => None end)
         (match status j with error => failure j | _ => None end).

(** Modelled from the spec: [getStatus(jobId) -> JobView] returns the
    current status and progress, or the terminal result or error, and
    fails with [NotFound] when the job id is unknown or expired (section
    4.4).  The handler of the status endpoint is missing from the
    sources.  The state is threaded through the call, so that what a
    read does to it can be stated. *)
Definition getStatus (o : Orchestrator) (jobId : string)
    : (NotFound + JobView) * Orchestrator :=
  match jobs o !! jobId with
  | None => (inl not_found, o)
  | Some j => (inr (view_of j), o)
  end.

(** Modelled from the spec: what execution makes of a job, the analysis
    with its report or a classified failure (section 4.4). *)
Inductive Outcome : Type :=
| Success (r : Result)
| Failed (f : Failure).

(** Modelled from the spec: the transitions of the state machine (section
    4.4), each a partial map on jobs.  Execution begins on a [pending]
    job only, so a job is executed at most once; progress is updated
    while [running], to a percentage not below the current one; a
    [running] job ends in [complete] with its result or in [error] with
    its failure.  No transition leaves [complete] or [error]. *)
Definition begin (j : Job) : option Job :=
  match status j with
  | pending =>
      Some (mkJob running (progress j) (provider j) (promptStrategy j)
                  None None (createdAt j) None)
  | _ => None
  end.

Definition advance (p : nat) (j : Job) : option Job :=
  match status j with
  | running =>
      if (progress j <=? p)%nat && (p <=? 100)%nat
      then Some (mkJob running p (provider j) (promptStrategy j)
                       None None (createdAt j) None)
      else None
  | _ => None
  end.

Definition finish (out : Outcome) (now : N) (j : Job) : option Job :=
  match status j with
  | running =>
      Some (match out with
            | Success r =>
                mkJob complete (progress j) (provider j) (promptStrategy j)
                      (Some r) None (createdAt j) (Some now)
            | Failed f =>
                mkJob error (progress j) (provider j) (promptStrategy j)
                      None (Some f) (createdAt j) (Some now)
            end)
  | _ => None
  end.

(** The job [jobId] taken through a transition, when it is enabled. *)
Definition transition (o : Orchestrator) (jobId : string) (t : Job -> option Job)
    : Orchestrator :=
  match jobs o !! jobId ≫= t with
  | Some j' => mkOrchestrator (registry o) (<[jobId := j']> (jobs o)) (issued o)
  | None => o
  end.

(** Modelled from the spec: a job's lifetime ends when it is retrieved
    and expired (section 3), and the id of an expired job is not found
    (section 4.4).  The spec does not say when a job expires, so expiry
    is an event of its own, enabled once the job is terminal. *)
Definition expire (o : Orchestrator) (jobId : string) : Orchestrator :=
  match jobs o !! jobId with
  | Some j =>
      if terminal (status j)
      then mkOrchestrator (registry o) (delete jobId (jobs o)) (issued o)
      else o
  | None => o
  end.

(** Modelled from the spec: what happens at the Orchestrator, in
    whatever order it comes: the two public operations, called by
    clients, the steps of its own execution path, which runs beside the
    requests (section 5), and expiry. *)
Inductive Event : Type :=
| Submit (inputText providerName strategy : string) (now : N)
| GetStatus (jobId : string)
| Begin (jobId : string)
| Progress (jobId : string) (p : nat)
| Finish (jobId : string) (out : Outcome) (now : N)
| Expire (jobId : string).

(** What the callers are answered. *)
Inductive Reply : Type :=
| Submitted (r : ValidationError + string)
| Viewed (jobId : string) (r : NotFound + JobView).

Definition handle (o : Orchestrator) (ev : Event) : list Reply * Orchestrator :=
  match ev with
  | Submit inputText providerName strategy now =>
      let r := submit o inputText providerName strategy now in
      ([Submitted r.1], r.2)
  | GetStatus jobId =>
      let r := getStatus o jobId in
      ([Viewed jobId r.1], r.2)
  | Begin jobId => ([], transition o jobId begin)
  | Progress jobId p => ([], transition o jobId (advance p))
  | Finish jobId out now => ([], transition o jobId (finish out now))
  | Expire jobId => ([], expire o jobId)
  end.

Fixpoint run (o : Orchestrator) (evs : list Event) : list Reply * Orchestrator :=
  match evs with
  | [] => ([], o)
  | ev :: evs' =>
      let r := handle o ev in
      let r' := run r.2 evs' in
      ((r.1 ++ r'.1)%list, r'.2)
  end.

(** The answers to the calls of [getStatus] for [jobId]. *)
Fixpoint views_of (jobId : string) (replies : list Reply) : list (NotFound + JobView) :=
  match replies with
  | [] => []
  | Viewed id r :: rest =>
      if String.eqb id jobId then r :: views_of jobId rest else views_of jobId rest
  | Submitted _ :: rest => views_of jobId rest
  end.

(** Every stored job goes under an id that was issued. *)
Definition wf (o : Orchestrator) : Prop := dom (jobs o) ⊆ issued o.

End JobOrchestrator.

(** ** Reading a trace *)

Definition is_status_request (ev : Event) : bool :=
  match ev with
  | Request GET _ _ => true
  | _ => false
  end.

(** The status polls made. *)
Definition status_requests (t : list Event) : list Event := filter is_status_request t.

(** The bodies of the POST requests, in order. *)
Fixpoint posted_bodies (t : list Event) : list (option FormData) :=
  match t with
  | [] => []
  | Request POST _ body :: t' => body :: posted_bodies t'
  | _ :: t' => posted_bodies t'
  end.

(** The timer waits, in milliseconds. *)
Fixpoint delays (t : list Event) : list nat :=
  match t with
  | [] => []
  | Delay ms :: t' => ms :: delays t'
  | _ :: t' => delays t'
  end.

(** The contents of the files handed to the user. *)
Fixpoint downloads (t : list Event) : list Blob :=
  match t with
  | [] => []
  | Download _ b :: t' => b :: downloads t'
  | _ :: t' => downloads t'
  end.

(** The texts of the alerts shown. *)
Fixpoint alerts (t : list Event) : list string :=
  match t with
  | [] => []
  | Alert msg :: t' => msg :: alerts t'
  | _ :: t' => alerts t'
  end.

(** The names of the fields of a request body. *)
Definition field_names (d : FormData) : list string := map fst d.

(** ** Reading the server's replies *)

(** The report carried by the reply to a poll: a 2xx response whose
    declared content type contains [application/pdf] and whose body can be
    read. *)
Definition report_of (reply : Settled Response) : option Blob :=
  match reply with
  | Fulfilled r =>
      if ok r && DepressionDetectorForm.is_pdf (content_type r) then
        match blob r with
        | Fulfilled b => Some b
        | Rejected _ => None
        end
      else None
  | Rejected _ => None
  end.

(** The failure reported by the reply to a poll: status 400 and a JSON
    object whose [status] is ["error"]; the result is the text of its
    [error] property. *)
Definition job_error_of (reply : Settled Response) : option string :=
  match reply with
  | Fulfilled r =>
      match json r with
      | Fulfilled (VObj fields) =>
          if (status r =? 400)%nat &&
             strict_eq_str (default VUndefined (assoc "status" fields)) "error"
          then Some (to_string (default VUndefined (assoc "error" fields)))
          else None
      | _ => None
      end
  | Rejected _ => None
  end.

(** A non-success response whose JSON body has [status: "error"], whatever
    its status code. *)
Definition error_status_body (reply : Settled Response) : bool :=
  match reply with
  | Fulfilled r =>
      negb (ok r) &&
      match json r with
      | Fulfilled (VObj fields) =>
          strict_eq_str (default VUndefined (assoc "status" fields)) "error"
      | _ => false
      end
  | Rejected _ => false
  end.

(** The messages of the exceptions the reply itself brings along: the
    rejection of [fetch], of [json()] or of [blob()].  The browser words
    them. *)
Definition rejection_messages (reply : Settled Response) : list string :=
  match reply with
  | Rejected e => [message e]
  | Fulfilled r =>
      match json r with Rejected e => [message e] | Fulfilled _ => [] end ++
      match blob r with Rejected e => [message e] | Fulfilled _ => [] end
  end%list.

(** No exception of the browser reads like the component's own
    "Processing failed" error. *)
Definition benign (reply : Settled Response) : bool :=
  forallb (fun m => negb (startsWith m "Processing failed")) (rejection_messages reply).

(** A reply that ends nothing: no report, no reported failure. *)
Definition quiet (reply : Settled Response) : bool :=
  benign reply &&
  match report_of reply with Some _ => false | None => true end &&
  match job_error_of reply with Some _ => false | None => true end.

(** Three kinds of failed polls: a network failure, an error response, a
    2xx status body that is not a report and cannot be parsed. *)
Definition named_failure (reply : Settled Response) : bool :=
  match reply with
  | Rejected _ => true
  | Fulfilled r =>
      if ok r then
        negb (DepressionDetectorForm.is_pdf (content_type r)) &&
        match json r with Rejected _ => true | Fulfilled _ => false end
      else true
  end.

(** The job id the client takes from the reply to the upload, when it
    gets that far: a 2xx response whose body parses to something that has
    properties. *)
Definition job_of_upload (reply : Settled Response) : option JsVal :=
  match reply with
  | Fulfilled r =>
      if ok r then
        match json r with
        | Fulfilled VUndefined | Fulfilled VNull | Rejected _ => None
        | Fulfilled (VObj fields) => Some (default VUndefined (assoc "job_id" fields))
        | Fulfilled _ => Some VUndefined
        end
      else None
  | Rejected _ => None
  end.

(** The address polled for the job [id]. *)
Definition poll_url (env : DepressionDetectorForm.Env) (id : string) : string :=
  DepressionDetectorForm.API_URL env ++ "/api/job/" ++ id.

Definition timeout_message : string := "Processing timeout - took longer than 10 minutes".

(** The events of [onSubmit] up to the reply to the upload, those after a
    download, and those of its [catch] block. *)
Definition upload_events (props : DepressionDetectorForm.Props)
    (env : DepressionDetectorForm.Env) (text : string) : list Event :=
  [ConsoleLog "Submitting text...";
   Request POST (DepressionDetectorForm.API_URL env ++ "/api/upload")
           (Some [("llm", FText (DepressionDetectorForm.llm props)); ("text", FText text)])].

Definition success_events (props : DepressionDetectorForm.Props) : list Event :=
  (FormReset :: Alert "✓ Report generated and downloaded successfully!" ::
   if DepressionDetectorForm.onSuccess props then [OnSuccess] else [])%list.

Definition failure_events (e : JsError) : list Event :=
  [ConsoleError ("Error: " ++ message e); Alert ("❌ Error: " ++ message e)].

(** What one [try] block of the polling loop may do, read off the reply it
    was given: [t] are the events of the attempt, the index its outcome. *)
Inductive attempt_spec (reply : Settled Response) (t : list Event)
  : Outcome bool -> Prop :=
| attempt_report b :
    report_of reply = Some b -> downloads t = [b] ->
    attempt_spec reply t (Returned true)
| attempt_pending :
    report_of reply = None -> job_error_of reply = None -> downloads t = [] ->
    attempt_spec reply t (Returned false)
| attempt_job_error msg :
    job_error_of reply = Some msg -> downloads t = [] ->
    attempt_spec reply t (Thrown (mkError ("Processing failed: " ++ msg)))
| attempt_failure e :
    downloads t = [] ->
    (benign reply = true -> startsWith (message e) "Processing failed" = false) ->
    attempt_spec reply t (Thrown e).

(** The same for a whole iteration, started in state [st]. *)
Inductive iteration_spec (reply : Settled Response)
    (st : DepressionDetectorForm.LoopState) (t : list Event)
  : Outcome DepressionDetectorForm.LoopState -> Prop :=
| iteration_report b :
    report_of reply = Some b -> downloads t = [b] ->
    iteration_spec reply st t
      (Returned (DepressionDetectorForm.mkLoop true
                   (S (DepressionDetectorForm.pollCount st))))
| iteration_continue :
    downloads t = [] ->
    iteration_spec reply st t
      (Returned (DepressionDetectorForm.mkLoop
                   (DepressionDetectorForm.isComplete st)
                   (S (DepressionDetectorForm.pollCount st))))
| iteration_abort e :
    downloads t = [] ->
    startsWith (message e) "Processing failed" = true ->
    (benign reply = true ->
     exists msg, job_error_of reply = Some msg /\
                 e = mkError ("Processing failed: " ++ msg)) ->
    iteration_spec reply st t (Thrown e).

(** ** More of the traces *)

(** The names of the files handed to the user. *)
Fixpoint download_names (t : list Event) : list string :=
  match t with
  | [] => []
  | Download f _ :: t' => f :: download_names t'
  | _ :: t' => download_names t'
  end.

Definition is_form_reset (ev : Event) : bool :=
  match ev with FormReset => true | _ => false end.

Definition is_callback (ev : Event) : bool :=
  match ev with OnSuccess => true | _ => false end.

(** The calls of [form.reset] and of the [onSuccess] prop. *)
Definition form_resets (t : list Event) : list Event := filter is_form_reset t.
Definition callbacks (t : list Event) : list Event := filter is_callback t.

(** [`report_${jobId.substring(0, 8)}.pdf`] *)
Definition report_name (id : string) : string := "report_" ++ substring0 8 id ++ ".pdf".

Definition success_message : string := "✓ Report generated and downloaded successfully!".

Definition file_success_message : string := "Report generated and downloaded successfully!".

(** ** More of JavaScript's strings *)

(** The character written as a one-character string. *)
Definition char_of (s : string) : Ascii.ascii :=
  match s with
  | String a _ => a
  | EmptyString => Ascii.zero
  end.

Definition newline : Ascii.ascii := Ascii.ascii_of_nat 10.

(** [s.split(c)] for a separator of one character. *)
Fixpoint split_on (c : Ascii.ascii) (s : string) : list string :=
  match s with
  | EmptyString => [""]
  | String a s' =>
      if Ascii.eqb a c then "" :: split_on c s'
      else match split_on c s' with
           | piece :: rest => String a piece :: rest
           | [] => [String a ""]
           end
  end.

(** [pieces.join(sep)] *)
Fixpoint join (sep : string) (pieces : list string) : string :=
  match pieces with
  | [] => ""
  | [piece] => piece
  | piece :: rest => piece ++ sep ++ join sep rest
  end.

Fixpoint all_chars (p : Ascii.ascii -> bool) (s : string) : bool :=
  match s with
  | EmptyString => true
  | String a s' => p a && all_chars p s'
  end.

Fixpoint count_char (c : Ascii.ascii) (s : string) : nat :=
  match s with
  | EmptyString => 0
  | String a s' => (if Ascii.eqb a c then 1 else 0) + count_char c s'
  end.

(** ** Regular expressions *)

(** The pattern of the e-mail field is anchored at both ends and has no
    groups, no look-around and no back-references, so [s.match(pattern)]
    finds something exactly when [s] is in the language of the pattern;
    membership is decided here by derivatives.  A pattern is written
    with its anchors [^] and [$] left implicit. *)
Module Regex.

Inductive re : Type :=
| Void
| Eps
| Chr (p : Ascii.ascii -> bool)
| Cat (r1 r2 : re)
| Alt (r1 r2 : re)
| Star (r : re).

(** [r+] and [r{2,}] *)
Definition plus (r : re) : re := Cat r (Star r).
Definition at_least2 (r : re) : re := Cat r (Cat r (Star r)).

Fixpoint nullable (r : re) : bool :=
  match r with
  | Void => false
  | Eps => true
  | Chr _ => false
  | Cat r1 r2 => nullable r1 && nullable r2
  | Alt r1 r2 => nullable r1 || nullable r2
  | Star _ => true
  end.

Fixpoint deriv (a : Ascii.ascii) (r : re) : re :=
  match r with
  | Void => Void
  | Eps => Void
  | Chr p => if p a then Eps else Void
  | Cat r1 r2 =>
      if nullable r1 then Alt (Cat (deriv a r1) r2) (deriv a r2)
      else Cat (deriv a r1) r2
  | Alt r1 r2 => Alt (deriv a r1) (deriv a r2)
  | Star r => Cat (deriv a r) (Star r)
  end.

(** Whether [s.match(/^r$/)] finds a match. *)
Fixpoint test (r : re) (s : string) : bool :=
  match s with
  | EmptyString => nullable r
  | String a s' => test (deriv a r) s'
  end.

(** The language of a pattern. *)
Inductive matches : re -> string -> Prop :=
| m_eps : matches Eps ""
| m_chr p a : p a = true -> matches (Chr p) (String a "")
| m_cat r1 r2 s1 s2 : matches r1 s1 -> matches r2 s2 -> matches (Cat r1 r2) (s1 ++ s2)
| m_alt_l r1 r2 s : matches r1 s -> matches (Alt r1 r2) s
| m_alt_r r1 r2 s : matches r2 s -> matches (Alt r1 r2) s
| m_star_nil r : matches (Star r) ""
| m_star_cons r s1 s2 : matches r s1 -> matches (Star r) s2 -> matches (Star r) (s1 ++ s2).

End Regex.

(** ** Calls of the pages that keep their data in Firestore *)

Module Calls.

(** What these pages ask of Firebase and of the browser, besides the
    events of the forms above. *)
Inductive Call : Type :=
| AddDoc (collection : string) (fields : list (string * JsVal))
| DeleteDoc (collection id : string)
| Confirm (msg : string)
| ReadAsDataURL (f : File)
| Ui (ev : Event).

(** The documents written. *)
Fixpoint added_docs (calls : list Call) : list (string * list (string * JsVal)) :=
  match calls with
  | [] => []
  | AddDoc c fields :: rest => (c, fields) :: added_docs rest
  | _ :: rest => added_docs rest
  end.

(** The events among the calls. *)
Fixpoint ui_events (calls : list Call) : list Event :=
  match calls with
  | [] => []
  | Ui ev :: rest => ev :: ui_events rest
  | _ :: rest => ui_events rest
  end.

End Calls.

(** ** ContactForm (the message form: name, e-mail, message) *)

Module MessageForm.

(** Character classes of the e-mail pattern, under the [i] flag. *)
Definition in_range (lo hi : N) (a : Ascii.ascii) : bool :=
  (lo <=? Ascii.N_of_ascii a)%N && (Ascii.N_of_ascii a <=? hi)%N.

Definition is_char (c a : Ascii.ascii) : bool := Ascii.eqb a c.

(** [[A-Z]] with [i] *)
Definition letter (a : Ascii.ascii) : bool := in_range 65 90 a || in_range 97 122 a.

(** [[0-9]] *)
Definition digit (a : Ascii.ascii) : bool := in_range 48 57 a.

(** [[A-Z0-9._%+-]] with [i] *)
Definition local_char (a : Ascii.ascii) : bool :=
  letter a || digit a || is_char (char_of ".") a || is_char (char_of "_") a ||
  is_char (char_of "%") a || is_char (char_of "+") a || is_char (char_of "-") a.

(** [[A-Z0-9.-]] with [i] *)
Definition domain_char (a : Ascii.ascii) : bool :=
  letter a || digit a || is_char (char_of ".") a || is_char (char_of "-") a.

(** [/^[A-Z0-9._%+-]+@[A-Z0-9.-]+\.[A-Z]{2,}$/i] *)
Definition email_re : Regex.re :=
  Regex.Cat (Regex.plus (Regex.Chr local_char))
    (Regex.Cat (Regex.Chr (is_char (char_of "@")))
       (Regex.Cat (Regex.plus (Regex.Chr domain_char))
          (Regex.Cat (Regex.Chr (is_char (char_of ".")))
             (Regex.at_least2 (Regex.Chr letter))))).

(** The values of the three fields. *)
Record Values : Type := mkValues { name : string; email : string; message : string }.

Record Env : Type := mkEnv {
  added : Settled unit;      (* await addDoc(...) *)
  now : N                    (* new Date(), in milliseconds *)
}.

(** The timestamp [new Date()] is kept as its number of milliseconds. *)
Definition onSubmit (onSuccess : bool) (env : Env) (values : Values) : list Calls.Call :=
  (* Add document to 'submissions' collection *)
  Calls.AddDoc "submissions"
    [("name", VStr (name values)); ("email", VStr (email values));
     ("message", VStr (message values)); ("timestamp", VNum (Z.of_N (now env)))] ::
  match added env with
  | Fulfilled _ =>
      (Calls.Ui FormReset :: Calls.Ui (Alert "Form submitted successfully!") ::
       (* Close dialog after success *)
       if onSuccess then [Calls.Ui OnSuccess] else [])%list
  | Rejected (mkError msg) =>
      [Calls.Ui (ConsoleError ("Error submitting form: " ++ msg));
       Calls.Ui (Alert "Error submitting form. Please try again.")]
  end.

Definition name_rules : RHF.Rules :=
  RHF.mkRules (Some "Name is required") (Some (2, "Name must be at least 2 characters")).

Definition message_rules : RHF.Rules :=
  RHF.mkRules (Some "Message is required")
              (Some (10, "Message must be at least 10 characters")).

(** The rules of the field [email]: [required], then [pattern]; the
    library applies a pattern to a value that is not empty and reports
    the rule's message when [value.match(pattern)] finds nothing. *)
Definition validate_email (value : string) : option string :=
  match RHF.validateField (RHF.mkRules (Some "Email is required") None) value with
  | Some msg => Some msg
  | None =>
      if negb (String.eqb value "") && negb (Regex.test email_re value)
      then Some "Invalid email address" else None
  end.

(** The messages put under the fields, in the order of the fields. *)
Definition errors (values : Values) : list (string * string) :=
  (match RHF.validateField name_rules (name values) with
   | Some msg => [("name", msg)] | None => [] end ++
   match validate_email (email values) with
   | Some msg => [("email", msg)] | None => [] end ++
   match RHF.validateField message_rules (message values) with
   | Some msg => [("message", msg)] | None => [] end)%list.

(** [form.handleSubmit(onSubmit)], called with the values of the fields:
    the handler runs when no field has a message. *)
Definition submit (onSuccess : bool) (env : Env) (values : Values)
    : list (string * string) + list Calls.Call :=
  match errors values with
  | [] => inr (onSubmit onSuccess env values)
  | errs => inl errs
  end.

End MessageForm.

(** ** ContactForm (the form that stores a file in Firestore) *)

Module FileStoreForm.

(** The selected file with its [type]; its [size] is the length of its
    content. *)
Record Upload : Type := mkUpload { file : File; type : string }.

(** [read] is the reader's [result] when it fires [load]; [None] when it
    fires [error], and the promise is rejected with that event. *)
Record Env : Type := mkEnv {
  read : option string;
  added : Settled unit;      (* await addDoc(...) *)
  now : N                    (* new Date(), in milliseconds *)
}.

(** [fileData.split(',')[1]] *)
Definition base64_part (fileData : string) : JsVal :=
  match split_on (char_of ",") fileData !! 1%nat with
  | Some piece => VStr piece
  | None => VUndefined
  end.

(** The [catch] block, given what was caught as text and its [message]. *)
Definition failure (caught : string) (msg : JsVal) : list Calls.Call :=
  [Calls.Ui (ConsoleError ("Upload error: " ++ caught));
   Calls.Ui (Alert ("Error: " ++ to_string msg))].

(** The two [console.log] calls before the [try] print the form's values;
    only their fixed texts are kept.  The event of a failed read is a
    [ProgressEvent], which has no [message]. *)
Definition onSubmit (onSuccess : bool) (env : Env) (selected : option Upload)
    : list Calls.Call :=
  Calls.Ui (ConsoleLog "SUBMIT FIRED") :: Calls.Ui (ConsoleLog "FILE:") ::
  match selected with
  | None => [Calls.Ui (Alert "Please select a file")]
  | Some u =>
      Calls.Ui (ConsoleLog "Reading file as Base64...") ::
      (* Convert file to Base64 using a safe method *)
      Calls.ReadAsDataURL (file u) ::
      match read env with
      | None => failure "[object ProgressEvent]" VUndefined
      | Some fileData =>
          (* Extract just the base64 part *)
          let base64String := base64_part fileData in
          Calls.Ui (ConsoleLog "Saving file to Firestore...") ::
          (* Save to Firestore with Base64 encoded file *)
          Calls.AddDoc "submissions"
            [("fileName", VStr (name (file u)));
             ("fileType", VStr (type u));
             ("fileSize", VNum (Z.of_nat (length (content (file u)))));
             ("fileData", base64String);
             ("timestamp", VNum (Z.of_N (now env)))] ::
          match added env with
          | Fulfilled _ =>
              (Calls.Ui FormReset :: Calls.Ui (Alert "File saved successfully!") ::
               if onSuccess then [Calls.Ui OnSuccess] else [])%list
          | Rejected error => failure (message error) (VStr (message error))
          end
      end
  end.

End FileStoreForm.

(** ** CSVPreview *)

Module CSVPreview.

(** The two [useState] cells. *)
Record State : Type := mkState { content : string; error : string }.

Definition initial : State := mkState "" "".

(** [text.split('\n').slice(0, 50).join('\n')] *)
Definition first_lines (text : string) : string :=
  join (String newline "") (take 50 (split_on newline text)).

(** [fetchCSV], given what [fetch(fileURL)] and then [response.text()]
    settle to. *)
Definition fetchCSV (reply : Settled (Settled string)) (s : State) : State :=
  match reply with
  | Fulfilled (Fulfilled text) => mkState (first_lines text) (error s)
  | _ => mkState (content s) "Failed to load CSV preview"
  end.

(** The effect runs once for each [fileURL] the component is given. *)
Definition run (replies : list (Settled (Settled string))) : State :=
  fold_left (fun s reply => fetchCSV reply s) replies initial.

(** What is put on the page: the error's paragraph when [error] is not
    empty, the [pre] with the content otherwise. *)
Inductive View : Type :=
| ErrorText (msg : string)
| Pre (text : string).

Definition render (s : State) : View :=
  if negb (String.eqb (error s) "") then ErrorText (error s) else Pre (content s).

End CSVPreview.

(** ** AdminDashboard (the list of stored submissions) *)

Module AdminDashboard.

(** A document of the collection with its id.  The forms that write the
    collection give their documents no [id] field of their own, so the
    [id] of [{ id: doc.id, ...doc.data() }] is the document id. *)
Record Submission : Type := mkSubmission {
  id : string;
  data : list (string * JsVal)
}.

(** [submission.<key>] for a key other than [id]. *)
Definition field (sub : Submission) (key : string) : JsVal :=
  default VUndefined (assoc key (data sub)).

(** The four [useState] cells. *)
Record State : Type := mkState {
  submissions : list Submission;
  loading : bool;
  deleting : option string;
  expandedFile : option string
}.

(** [handleDelete(id)], given the answer to [window.confirm] and what
    [deleteDoc] settles to.  [rendered] is the constant [submissions] of
    the render whose button was clicked, which the handler filters; [s]
    holds the cells at the time [deleteDoc] settles. *)
Definition handleDelete (confirmed : bool) (deleted : Settled unit)
    (rendered : list Submission) (s : State) (target : string)
    : State * list Calls.Call :=
  let ask := Calls.Confirm "Are you sure you want to delete this submission?" in
  if negb confirmed then (s, [ask])
  else
    match deleted with
    | Fulfilled _ =>
        (mkState (filter (fun sub => negb (String.eqb (id sub) target)) rendered)
                 (loading s) None (expandedFile s),
         [ask; Calls.DeleteDoc "submissions" target])
    | Rejected error =>
        (mkState (submissions s) (loading s) None (expandedFile s),
         [ask; Calls.DeleteDoc "submissions" target;
          Calls.Ui (ConsoleError ("Error deleting submission: " ++ message error));
          Calls.Ui (Alert "Failed to delete submission")])
    end.

(** A click on a delete button of the page as it shows [s], with the
    deletion settled before anything else happens. *)
Definition delete (confirmed : bool) (deleted : Settled unit) (s : State)
    (target : string) : State * list Calls.Call :=
  handleDelete confirmed deleted (submissions s) s target.

(** What the preview area holds. *)
Inductive Kind : Type :=
| PdfViewer | Image | Csv | Presentation | Document | NotAvailable.

(** The chain of [submission.fileType?.includes(...)] tests. *)
Definition kind_of (fileType : string) : Kind :=
  if includes fileType "pdf" then PdfViewer
  else if includes fileType "image" then Image
  else if includes fileType "csv" || includes fileType "text" then Csv
  else if includes fileType "presentation" || includes fileType "powerpoint"
  then Presentation
  else if includes fileType "word" || includes fileType "document" then Document
  else NotAvailable.

Inductive Preview : Type :=
| Hidden
| Shown (k : Kind)
| TypeError.

(** [expandedFile === submission.id && submission.fileURL && (...)]: a
    [fileType] that is neither a string nor [undefined] nor [null] has no
    [includes] to call. *)
Definition preview (s : State) (sub : Submission) : Preview :=
  if bool_decide (expandedFile s = Some (id sub)) && truthy (field sub "fileURL") then
    match field sub "fileType" with
    | VStr fileType => Shown (kind_of fileType)
    | VUndefined | VNull => Shown NotAvailable
    | _ => TypeError
    end
  else Hidden.

(** [submission.fileURL && <a href={submission.fileURL}>Download File</a>] *)
Definition download_link (sub : Submission) : bool := truthy (field sub "fileURL").

End AdminDashboard.

(** ** Example inputs *)

Import DepressionDetectorForm.

(** The text of a JSON object, given its members' names and the texts of
    their values. *)
Definition dquote : string := String (Ascii.ascii_of_nat 34) EmptyString.

Definition quoted (s : string) : string := dquote ++ s ++ dquote.

Fixpoint json_members (fields : list (string * string)) : string :=
  match fields with
  | [] => ""
  | [(k, v)] => quoted k ++ ": " ++ v
  | (k, v) :: rest => quoted k ++ ": " ++ v ++ ", " ++ json_members rest
  end.

Definition json_bytes (fields : list (string * string)) : Blob :=
  String.list_byte_of_string ("{" ++ json_members fields ++ "}").

(** The reply to a poll while the job is running. *)
Definition pending_response : Response :=
  mkResponse 200 "OK" (Some "application/json")
             (Fulfilled (VObj [("status", VStr "running"); ("progress", VNum 50)]))
             (Fulfilled (json_bytes [("status", quoted "running"); ("progress", "50")])).

(** The reply to an accepted upload. *)
Definition job_response (id : string) : Response :=
  mkResponse 200 "OK" (Some "application/json")
             (Fulfilled (VObj [("job_id", VStr id)]))
             (Fulfilled (json_bytes [("job_id", quoted id)])).

(** A reply that says the job has failed, under the status code [code]. *)
Definition server_error_response (code : nat) (msg : string) : Response :=
  mkResponse code "ERROR" (Some "application/json")
             (Fulfilled (VObj [("status", VStr "error"); ("error", VStr msg)]))
             (Fulfilled (json_bytes [("status", quoted "error"); ("error", quoted msg)])).

(** The first bytes of a PDF file: "%PDF". *)
Definition report_bytes : Blob := [Byte.x25; Byte.x50; Byte.x44; Byte.x46].

(** The reply to a poll once the report is there. *)
Definition pdf_response : Response :=
  mkResponse 200 "OK" (Some "application/pdf")
             (Rejected (mkError "Unexpected token '%'"))
             (Fulfilled report_bytes).

(** An error page of a proxy in front of the server. *)
Definition html_response : Response :=
  mkResponse 200 "OK" (Some "text/html")
             (Rejected (mkError "Unexpected token '<'"))
             (Fulfilled (String.list_byte_of_string "<html>Bad Gateway</html>")).

Definition example_props : Props := mkProps true "Gemini" "few_shot".

Definition example_text : string := "I feel hopeless and exhausted every day.".

Definition example_job : string := "3f2b8c1e-7a4d-4c59-9e0b-5d1f6a7b8c9d".

(** A server that accepts the job and then reports it as running for ever. *)
Definition never_done : Env :=
  mkEnv None (Fulfilled (job_response example_job))
        (fun _ => Fulfilled pending_response).

(** A server that answers every poll with status 500 and a body that says
    the job has failed. *)
Definition failed_with_500 : Env :=
  mkEnv None (Fulfilled (job_response example_job))
        (fun _ => Fulfilled (server_error_response 500 "BackendUnavailable")).

(** A server that reports the job as running twice and as failed, with
    status 400, at the third poll. *)
Definition failed_with_400 : Env :=
  mkEnv None (Fulfilled (job_response example_job))
        (fun n => if (n <? 3)%nat then Fulfilled pending_response
                  else Fulfilled (server_error_response 400 "BackendUnavailable")).

(** A server whose replies to the polls cannot be parsed. *)
Definition garbled : Env :=
  mkEnv None (Fulfilled (job_response example_job))
        (fun _ => Fulfilled html_response).

(** A server that has the report ready at the second poll. *)
Definition done_at_second : Env :=
  mkEnv None (Fulfilled (job_response example_job))
        (fun n => if (n <? 2)%nat then Fulfilled pending_response
                  else Fulfilled pdf_response).

Definition example_file : File :=
  mkFile "diary.txt" (String.list_byte_of_string "I feel hopeless").

(** The same server as seen by the file form: it answers the upload with
    the id of the job it has started. *)
Definition job_started : ContactForm.Env :=
  ContactForm.mkEnv (Fulfilled (job_response example_job)) 1700000000000%N.

Definition ten_spaces : string := "          ".

(** Four check marks: four characters, of three bytes each. *)
Definition four_check_marks : string := "✓✓✓✓".

Definition finished_job : JobOrchestrator.Job :=
  JobOrchestrator.mkJob JobOrchestrator.complete 100 "Gemini" "simple"
    (Some (JobOrchestrator.mkResult "label: depressed, confidence: 0.82" report_bytes))
    None 1700000000000%N (Some 1700000042000%N).

(** An orchestrator that holds the finished job. *)
Definition one_job : JobOrchestrator.Orchestrator :=
  JobOrchestrator.mkOrchestrator ["Gemini"; "LLaMA"]
    {[ example_job := finished_job ]} {[ example_job ]}.

(** The same job while it runs. *)
Definition running_job : JobOrchestrator.Job :=
  JobOrchestrator.mkJob JobOrchestrator.running 50 "Gemini" "simple"
    None None 1700000000000%N None.

(** Polls of the finished job, with another submission and steps of
    execution between them. *)
Definition busy_schedule : list JobOrchestrator.Event :=
  [JobOrchestrator.GetStatus example_job;
   JobOrchestrator.Submit "I feel hopeless and exhausted every day." "LLaMA" "few_shot"
                          1700000050000%N;
   JobOrchestrator.Begin example_job;
   JobOrchestrator.Progress example_job 10;
   JobOrchestrator.GetStatus example_job;
   JobOrchestrator.Finish example_job
     (JobOrchestrator.Failed
        (JobOrchestrator.mkFailure JobOrchestrator.BackendUnavailable "timeout"))
     1700000060000%N;
   JobOrchestrator.GetStatus example_job].

(** A reply that refuses the upload. *)
Definition refusal_response (msg : string) : Response :=
  mkResponse 400 "BAD REQUEST" (Some "application/json")
             (Fulfilled (VObj [("error", VStr msg)]))
             (Fulfilled (json_bytes [("error", quoted msg)])).

(** A server that refuses the upload. *)
Definition upload_refused : Env :=
  mkEnv None (Fulfilled (refusal_response "Invalid LLM type"))
        (fun _ => Fulfilled pending_response).

(** A server that names the job under another key. *)
Definition job_under_other_key : Env :=
  mkEnv None
        (Fulfilled (mkResponse 200 "OK" (Some "application/json")
                      (Fulfilled (VObj [("jobId", VStr example_job)]))
                      (Fulfilled (json_bytes [("jobId", quoted example_job)]))))
        (fun _ => Fulfilled pdf_response).

(** The diary as selected in the form that stores files, and a reader
    that hands over its data URL. *)
Definition example_upload : FileStoreForm.Upload :=
  FileStoreForm.mkUpload example_file "text/plain".

Definition store_ready : FileStoreForm.Env :=
  FileStoreForm.mkEnv (Some "data:text/plain;base64,SSBmZWVsIGhvcGVsZXNz")
                      (Fulfilled tt) 1700000000000%N.

(** The dashboard with two stored files. *)
Definition stored_file (i fileName : string) : AdminDashboard.Submission :=
  AdminDashboard.mkSubmission i
    [("fileName", VStr fileName); ("fileType", VStr "text/plain");
     ("fileSize", VNum 15); ("fileData", VStr "SSBmZWVsIGhvcGVsZXNz");
     ("timestamp", VNum 1700000000000)].

Definition two_files : list AdminDashboard.Submission :=
  [stored_file "Zk3Qp" "diary.txt"; stored_file "Ab7Xy" "notes.txt"].

Definition example_page : AdminDashboard.State :=
  AdminDashboard.mkState two_files false None None.

(** * Properties *)

(** ** The monad *)

Lemma events_bind {A B} (m : Async A) (k : A -> Async B) :
  events (bind m k) =
  (events m ++ match outcome m with
               | Returned a => events (k a)
               | _ => []
               end)%list.
Proof.
  destruct m as [t [a|e|]]; simpl; [destruct (k a); reflexivity | | ];
    unfold events; simpl; by rewrite app_nil_r.
Qed.

Lemma outcome_bind {A B} (m : Async A) (k : A -> Async B) :
  outcome (bind m k) =
  match outcome m with
  | Returned a => outcome (k a)
  | Thrown e => Thrown e
  | OutOfFuel => OutOfFuel
  end.
Proof. destruct m as [t [a|e|]]; simpl; [destruct (k a) | | ]; reflexivity. Qed.

Lemma events_try_catch {A} (m : Async A) (h : JsError -> Async A) :
  events (try_catch m h) =
  (events m ++ match outcome m with
               | Thrown e => events (h e)
               | _ => []
               end)%list.
Proof.
  destruct m as [t [a|e|]]; simpl; [ | destruct (h e); reflexivity | ];
    unfold events; simpl; by rewrite app_nil_r.
Qed.

Lemma outcome_try_catch {A} (m : Async A) (h : JsError -> Async A) :
  outcome (try_catch m h) =
  match outcome m with
  | Thrown e => outcome (h e)
  | other => other
  end.
Proof. destruct m as [t [a|e|]]; simpl; [ | destruct (h e) | ]; reflexivity. Qed.

Lemma async_eta {A} (m : Async A) : m = (events m, outcome m).
Proof. by destruct m. Qed.

(** ** Traces *)

Lemma status_requests_app (t1 t2 : list Event) :
  status_requests (t1 ++ t2) = (status_requests t1 ++ status_requests t2)%list.
Proof. apply filter_app. Qed.

Lemma delays_app (t1 t2 : list Event) :
  delays (t1 ++ t2) = (delays t1 ++ delays t2)%list.
Proof. induction t1 as [|[] t1 IH]; simpl; congruence. Qed.

Lemma downloads_app (t1 t2 : list Event) :
  downloads (t1 ++ t2) = (downloads t1 ++ downloads t2)%list.
Proof. induction t1 as [|[] t1 IH]; simpl; congruence. Qed.

Lemma alerts_app (t1 t2 : list Event) :
  alerts (t1 ++ t2) = (alerts t1 ++ alerts t2)%list.
Proof. induction t1 as [|[] t1 IH]; simpl; congruence. Qed.

Lemma posted_bodies_app (t1 t2 : list Event) :
  posted_bodies (t1 ++ t2) = (posted_bodies t1 ++ posted_bodies t2)%list.
Proof. induction t1 as [|[|[]| | | | | | ] t1 IH]; simpl; congruence. Qed.

(** ** One poll *)

#[local] Arguments ok : simpl never.
#[local] Arguments Nat.eqb : simpl never.
#[local] Arguments Nat.leb : simpl never.
#[local] Arguments Nat.ltb : simpl never.
#[local] Arguments is_pdf : simpl never.

Lemma benign_spec reply m :
  benign reply = true -> In m (rejection_messages reply) ->
  startsWith m "Processing failed" = false.
Proof.
  unfold benign. rewrite forallb_forall. intros H Hin.
  apply negb_true_iff, H, Hin.
Qed.

Lemma ok_not_400 r : ok r = true -> (status r =? 400)%nat = false.
Proof.
  unfold ok. intros Hok. apply Nat.eqb_neq. intros E.
  rewrite E in Hok. discriminate.
Qed.

Ltac trace_facts := repeat split; simpl; lia.

Ltac reply_facts :=
  unfold report_of, job_error_of, benign, rejection_messages; simpl;
  repeat match goal with H : _ = _ |- _ => rewrite H end; simpl.

Ltac foreign_failure :=
  apply attempt_failure;
  [ reflexivity
  | first [ intros _; reflexivity
          | let Hb := fresh in
            intros Hb; apply (benign_spec _ _ Hb);
            unfold rejection_messages; simpl;
            repeat match goal with H : _ = _ |- _ => rewrite H end;
            apply in_or_app; simpl; auto ] ].

Ltac unfold_async :=
  unfold jobId_substring, fetch, await, get_prop, console_log, console_error,
    alert, emit, ret, throw, bind, try_catch, outcome, events.

Lemma poll_attempt_spec env jobId n :
  attempt_spec (status_reply env n) (events (poll_attempt env jobId n))
               (outcome (poll_attempt env jobId n)) /\
  delays (events (poll_attempt env jobId n)) = [] /\
  alerts (events (poll_attempt env jobId n)) = [] /\
  posted_bodies (events (poll_attempt env jobId n)) = [] /\
  length (status_requests (events (poll_attempt env jobId n))) <= 1.
Proof.
  unfold poll_attempt. unfold_async.
  destruct jobId as [| |jb|jz|id|jf]; simpl.
  all: try (split; [ foreign_failure | trace_facts ]).
  destruct (status_reply env n) as [r|e0]; simpl.
  2:{ split; [ apply attempt_failure; [reflexivity|] | trace_facts ].
      intros Hb; apply (benign_spec _ _ Hb); simpl; auto. }
  destruct (ok r) eqn:Hok; simpl.
  - destruct (is_pdf (content_type r)) eqn:Hpdf; simpl.
    + destruct (blob r) as [bb|eb] eqn:Hblob; simpl.
      * split; [ eapply attempt_report; [reply_facts|]; reflexivity | trace_facts ].
      * split; [ foreign_failure | trace_facts ].
    + pose proof (ok_not_400 _ Hok) as Hst.
      destruct (json r) as [v|ej] eqn:Hjson; simpl.
      * destruct v; simpl.
        all: split; [ first [ foreign_failure
                            | apply attempt_pending; reply_facts; reflexivity ]
                    | trace_facts ].
      * split; [ foreign_failure | trace_facts ].
  - destruct (json r) as [v|ej] eqn:Hjson; simpl.
    + destruct (status r =? 400)%nat eqn:Hst; simpl.
      * destruct v; simpl.
        all: try (split; [ foreign_failure | trace_facts ]).
        destruct (strict_eq_str (default VUndefined (assoc "status" fields)) "error")
          eqn:Herr; simpl.
        -- split; [ eapply attempt_job_error; reply_facts; reflexivity | trace_facts ].
        -- split; [ foreign_failure | trace_facts ].
      * split; [ foreign_failure | trace_facts ].
    + split; [ foreign_failure | trace_facts ].
Qed.

(** An attempt never runs out of fuel: there is no loop inside it. *)
Lemma poll_attempt_total env jobId n :
  outcome (poll_attempt env jobId n) <> OutOfFuel.
Proof.
  destruct (poll_attempt_spec env jobId n) as [H _].
  inversion H; congruence.
Qed.

(** The iteration, in terms of its [try] block. *)
Lemma poll_iteration_eq env jobId st :
  poll_iteration env jobId st =
  let n := S (pollCount st) in
  let a := poll_attempt env jobId n in
  ((Delay 1000 :: events a ++
      match outcome a with
      | Thrown e => [ConsoleError ("Poll error: " ++ message e)]
      | _ => []
      end)%list,
   match outcome a with
   | Returned done => Returned (mkLoop (done || isComplete st) n)
   | Thrown e =>
       if startsWith (message e) "Processing failed" then Thrown e
       else Returned (mkLoop (isComplete st) n)
   | OutOfFuel => OutOfFuel
   end).
Proof.
  unfold poll_iteration. simpl.
  destruct (poll_attempt env jobId (S (pollCount st))) as [t [c|e|]]; unfold_async; simpl.
  - by rewrite !app_nil_r.
  - destruct (startsWith (message e) "Processing failed"); simpl; reflexivity.
  - by rewrite !app_nil_r.
Qed.

Lemma poll_iteration_spec env jobId st :
  exists t o,
    poll_iteration env jobId st = (Delay 1000 :: t, o) /\
    iteration_spec (status_reply env (S (pollCount st))) st t o /\
    delays t = [] /\ alerts t = [] /\ posted_bodies t = [] /\
    length (status_requests t) <= 1.
Proof.
  rewrite poll_iteration_eq. simpl.
  destruct (poll_attempt_spec env jobId (S (pollCount st)))
    as (Hspec & Hd & Ha & Hp & Hs).
  eexists _, _. split; [reflexivity|].
  rewrite delays_app, alerts_app, posted_bodies_app, status_requests_app, length_app.
  rewrite Hd, Ha, Hp.
  inversion Hspec as [b Hrep Hdl Ho | Hrep Herr Hdl Ho | msg Herr Hdl Ho | e Hdl Hben Ho];
    simpl; rewrite ?app_nil_r.
  - split; [ by eapply iteration_report | trace_facts ].
  - split; [ by apply iteration_continue | trace_facts ].
  - split; [ | trace_facts ].
    apply iteration_abort; [ by rewrite downloads_app, Hdl | reflexivity | eauto ].
  - destruct (startsWith (message e) "Processing failed") eqn:Hsw.
    + split; [ | trace_facts ].
      apply iteration_abort; [ by rewrite downloads_app, Hdl | done | ].
      intros Hb. specialize (Hben Hb). congruence.
    + split; [ | trace_facts ].
      apply iteration_continue. by rewrite downloads_app, Hdl.
Qed.

(** With a job id that is a string, every attempt makes its request. *)
Lemma poll_attempt_request env id n :
  status_requests (events (poll_attempt env (VStr id) n)) =
  [Request GET (poll_url env id) None].
Proof.
  unfold poll_attempt, poll_url. unfold_async. simpl.
  destruct (status_reply env n) as [r|e0]; simpl; [|reflexivity].
  destruct (ok r), (is_pdf (content_type r)), (blob r), (json r) as [[]|];
    simpl; try reflexivity.
  all: destruct (status r =? 400)%nat; simpl; try reflexivity.
  all: destruct (strict_eq_str _ _); reflexivity.
Qed.

Lemma poll_attempt_job_error env id n msg :
  job_error_of (status_reply env n) = Some msg ->
  outcome (poll_attempt env (VStr id) n) =
  Thrown (mkError ("Processing failed: " ++ msg)).
Proof.
  unfold job_error_of, poll_attempt. unfold_async. simpl.
  destruct (status_reply env n) as [r|e0]; simpl; [|done].
  destruct (json r) as [[]|] eqn:Hj; try done.
  destruct (status r =? 400)%nat eqn:Hst; simpl; [|done].
  destruct (strict_eq_str _ _) eqn:Herr; [|done].
  intros [= <-].
  destruct (ok r) eqn:Hok; [ by rewrite (ok_not_400 _ Hok) in Hst | ].
  reflexivity.
Qed.

Lemma poll_iteration_request env id st :
  status_requests (events (poll_iteration env (VStr id) st)) =
  [Request GET (poll_url env id) None].
Proof.
  rewrite poll_iteration_eq. unfold events at 1. simpl.
  change (Delay 1000 :: ?t)%list with ([Delay 1000] ++ t)%list.
  rewrite !status_requests_app, poll_attempt_request.
  by destruct (outcome _).
Qed.

Lemma poll_iteration_job_error env id st msg :
  job_error_of (status_reply env (S (pollCount st))) = Some msg ->
  outcome (poll_iteration env (VStr id) st) =
  Thrown (mkError ("Processing failed: " ++ msg)).
Proof.
  intros H. rewrite poll_iteration_eq. unfold outcome at 1. simpl.
  by rewrite (poll_attempt_job_error _ _ _ _ H).
Qed.

Lemma quiet_inv reply :
  quiet reply = true ->
  benign reply = true /\ report_of reply = None /\ job_error_of reply = None.
Proof.
  unfold quiet. intros [[H1 H2]%andb_true_iff H3]%andb_true_iff.
  destruct (report_of reply), (job_error_of reply); done.
Qed.

(** A quiet reply leaves the loop state as it was, one poll later. *)
Lemma poll_iteration_quiet env jobId st :
  quiet (status_reply env (S (pollCount st))) = true ->
  outcome (poll_iteration env jobId st) =
    Returned (mkLoop (isComplete st) (S (pollCount st))) /\
  downloads (events (poll_iteration env jobId st)) = [].
Proof.
  intros (Hb & Hr & He)%quiet_inv.
  destruct (poll_iteration_spec env jobId st) as (t & o & -> & Hspec & _).
  unfold outcome, events; simpl.
  inversion Hspec as [b Hrep | | e Hdl Hsw Hmsg]; subst.
  - congruence.
  - done.
  - destruct (Hmsg Hb) as (msg & Hsome & _). congruence.
Qed.

(** ** The polling loop *)

Lemma while_loop_step fuel env jobId st :
  while_loop (S fuel) env jobId st =
  if negb (isComplete st) && (pollCount st <? maxPolls)%nat
  then bind (poll_iteration env jobId st) (while_loop fuel env jobId)
  else ret st.
Proof. reflexivity. Qed.

Lemma while_loop_exit fuel env jobId st :
  negb (isComplete st) && (pollCount st <? maxPolls)%nat = false ->
  while_loop fuel env jobId st = ret st.
Proof. destruct fuel; simpl; intros ->; reflexivity. Qed.

(** What the loop does to the trace, whatever the server answers. *)
Lemma while_loop_trace fuel env jobId st :
  let t := events (while_loop fuel env jobId st) in
  length (delays t) <= maxPolls - pollCount st /\
  length (status_requests t) <= length (delays t) /\
  Forall (fun ms => ms = 1000) (delays t) /\
  alerts t = [] /\ posted_bodies t = [].
Proof.
  revert st. induction fuel as [|fuel IH]; intros st; simpl.
  - destruct (negb (isComplete st) && (pollCount st <? maxPolls)%nat); simpl;
      repeat split; auto; lia.
  - destruct (negb (isComplete st) && (pollCount st <? maxPolls)%nat) eqn:Hg; simpl;
      [ | repeat split; auto; lia ].
    apply andb_true_iff in Hg as [_ Hlt%Nat.ltb_lt].
    rewrite events_bind.
    destruct (poll_iteration_spec env jobId st) as (t & o & -> & Hspec & Hd & Ha & Hp & Hs).
    unfold events at 1, outcome; simpl.
    rewrite delays_app, alerts_app, posted_bodies_app, Hd, Ha, Hp.
    change (Delay 1000 :: t ++ ?x)%list with ([Delay 1000] ++ t ++ x)%list.
    rewrite !status_requests_app, !length_app. simpl.
    inversion Hspec; subst; simpl; rewrite ?app_nil_r; simpl.
    1,2: match goal with |- context [while_loop _ _ _ ?s] =>
           destruct (IH s) as (I1 & I2 & I3 & I4 & I5) end;
         cbn [pollCount] in *; unfold maxPolls in *; repeat split; auto; lia.
    all: unfold maxPolls in *; repeat split; auto; lia.
Qed.

(** With fuel for the polls that are left, the loop ends by its own guard
    or by the rethrown failure of a job. *)
Lemma while_loop_outcome fuel env jobId st :
  maxPolls - pollCount st <= fuel ->
  match outcome (while_loop fuel env jobId st) with
  | Returned st' =>
      negb (isComplete st') && (pollCount st' <? maxPolls)%nat = false /\
      pollCount st <= pollCount st'
  | Thrown e => startsWith (message e) "Processing failed" = true
  | OutOfFuel => False
  end.
Proof.
  revert st. induction fuel as [|fuel IH]; intros st Hfuel.
  - assert (Hg : negb (isComplete st) && (pollCount st <? maxPolls)%nat = false).
    { apply andb_false_iff. right. apply Nat.ltb_ge. lia. }
    rewrite (while_loop_exit _ _ _ _ Hg). simpl. auto.
  - rewrite while_loop_step.
    destruct (negb (isComplete st) && (pollCount st <? maxPolls)%nat) eqn:Hg;
      [ | simpl; auto ].
    rewrite outcome_bind.
    destruct (poll_iteration_spec env jobId st) as (t & o & -> & Hspec & _).
    change (outcome (Delay 1000 :: t, o)) with o.
    inversion Hspec; subst; try done.
    all: match goal with |- context [while_loop _ _ _ ?s] =>
           specialize (IH s); cbn [pollCount] in IH;
           assert (Hf : maxPolls - S (pollCount st) <= fuel) by lia;
           specialize (IH Hf); revert IH;
           destruct (outcome (while_loop fuel env jobId s)); intros IH end.
    all: simpl in *; try done.
    all: destruct IH as [? ?]; split; [done | lia].
Qed.

(** Whatever is downloaded during the loop is the report carried by the
    reply to one of its polls. *)
Lemma while_loop_downloads fuel env jobId st b :
  In b (downloads (events (while_loop fuel env jobId st))) ->
  exists n, pollCount st < n <= maxPolls /\
            report_of (status_reply env n) = Some b.
Proof.
  revert st. induction fuel as [|fuel IH]; intros st.
  - simpl. destruct (_ && _); simpl; tauto.
  - rewrite while_loop_step.
    destruct (negb (isComplete st) && (pollCount st <? maxPolls)%nat) eqn:Hg;
      [ | simpl; tauto ].
    apply andb_true_iff in Hg as [_ Hlt%Nat.ltb_lt].
    rewrite events_bind.
    destruct (poll_iteration_spec env jobId st) as (t & o & -> & Hspec & _).
    unfold events at 2, outcome; simpl.
    rewrite downloads_app.
    intros [Hin|Hin]%in_app_or.
    + inversion Hspec as [b' Hrep Hdl | Hdl | e Hdl]; subst;
        rewrite Hdl in Hin; simpl in Hin; try tauto.
      destruct Hin as [<-|[]]. exists (S (pollCount st)). split; [lia | done].
    + destruct o as [st'| |]; simpl in Hin; try tauto.
      apply IH in Hin as (n & Hn & Hrep).
      exists n. split; [ | done ].
      inversion Hspec; subst; cbn [pollCount] in Hn; lia.
Qed.

(** As long as the replies are quiet, the loop runs to its last poll. *)
Lemma while_loop_quiet fuel env jobId st :
  isComplete st = false ->
  pollCount st <= maxPolls ->
  maxPolls - pollCount st <= fuel ->
  (forall n, pollCount st < n <= maxPolls -> quiet (status_reply env n) = true) ->
  outcome (while_loop fuel env jobId st) = Returned (mkLoop false maxPolls) /\
  length (delays (events (while_loop fuel env jobId st))) = maxPolls - pollCount st /\
  downloads (events (while_loop fuel env jobId st)) = [] /\
  (forall id, jobId = VStr id ->
     status_requests (events (while_loop fuel env jobId st)) =
     replicate (maxPolls - pollCount st) (Request GET (poll_url env id) None)).
Proof.
  revert st. induction fuel as [|fuel IH]; intros [c k]; cbn [isComplete pollCount];
    intros -> Hle Hfuel Hq.
  - assert (k = maxPolls) as -> by lia.
    rewrite while_loop_exit by (cbn [isComplete pollCount]; by rewrite Nat.ltb_irrefl).
    rewrite Nat.sub_diag. simpl. auto.
  - rewrite while_loop_step. cbn [isComplete pollCount]. simpl negb.
    destruct (k <? maxPolls)%nat eqn:Hlt; simpl andb; cbv iota.
    + apply Nat.ltb_lt in Hlt.
      destruct (poll_iteration_quiet env jobId (mkLoop false k)) as [Ho Hdl];
        [ apply Hq; cbn [pollCount]; lia | ].
      cbn [isComplete pollCount] in Ho.
      destruct (IH (mkLoop false (S k))) as (I1 & I2 & I3 & I4);
        cbn [isComplete pollCount]; [ done | lia | lia | intros; apply Hq; cbn; lia | ].
      cbn [isComplete pollCount] in *.
      rewrite outcome_bind, events_bind, Ho.
      rewrite delays_app, downloads_app, status_requests_app, length_app, Hdl, I2, I3.
      replace (maxPolls - k) with (S (maxPolls - S k)) by lia.
      repeat split; auto.
      * destruct (poll_iteration_spec env jobId (mkLoop false k))
          as (t & o & E & _ & Hd & _).
        rewrite E. unfold events at 1. simpl. rewrite Hd. simpl. lia.
      * intros id ->. rewrite poll_iteration_request, (I4 id eq_refl). reflexivity.
    + apply Nat.ltb_ge in Hlt. assert (k = maxPolls) as -> by lia.
      rewrite Nat.sub_diag. simpl. auto.
Qed.

(** Quiet replies up to poll [n], where the server reports the failure of
    the job: the loop stops there. *)
Lemma while_loop_job_error fuel env id st n msg :
  isComplete st = false ->
  pollCount st < n <= maxPolls ->
  n - pollCount st <= fuel ->
  (forall k, pollCount st < k < n -> quiet (status_reply env k) = true) ->
  job_error_of (status_reply env n) = Some msg ->
  outcome (while_loop fuel env (VStr id) st) =
    Thrown (mkError ("Processing failed: " ++ msg)) /\
  length (delays (events (while_loop fuel env (VStr id) st))) = n - pollCount st /\
  downloads (events (while_loop fuel env (VStr id) st)) = [] /\
  status_requests (events (while_loop fuel env (VStr id) st)) =
    replicate (n - pollCount st) (Request GET (poll_url env id) None).
Proof.
  revert st. induction fuel as [|fuel IH]; intros [c k]; cbn [isComplete pollCount];
    intros -> Hn Hfuel Hq Herr; [ lia | ].
  rewrite while_loop_step. cbn [isComplete pollCount]. simpl negb.
  assert (Hlt : (k <? maxPolls)%nat = true) by (apply Nat.ltb_lt; lia).
  rewrite Hlt. simpl andb. cbv iota.
  rewrite outcome_bind, events_bind.
  rewrite delays_app, downloads_app, status_requests_app, length_app.
  rewrite poll_iteration_request.
  destruct (poll_iteration_spec env (VStr id) (mkLoop false k))
    as (t & o & E & Hspec & Hd & _).
  assert (Hdel : length (delays (events (poll_iteration env (VStr id) (mkLoop false k)))) = 1).
  { rewrite E. unfold events. simpl. by rewrite Hd. }
  rewrite Hdel. clear E Hspec Hd Hdel t o.
  destruct (decide (S k = n)) as [<-|Hne].
  - rewrite (poll_iteration_job_error env id (mkLoop false k) msg Herr).
    replace (S k - k) with 1 by lia.
    destruct (poll_iteration_spec env (VStr id) (mkLoop false k))
      as (t & o & E & Hspec & _).
    pose proof (poll_iteration_job_error env id (mkLoop false k) msg Herr) as Ho.
    rewrite E in Ho |- *. unfold outcome in Ho; simpl in Ho; subst o.
    unfold events; simpl.
    inversion Hspec as [ | | e Hdl]; subst. rewrite Hdl. auto.
  - destruct (poll_iteration_quiet env (VStr id) (mkLoop false k)) as [Ho Hdl];
      [ apply Hq; cbn [pollCount]; lia | ].
    cbn [isComplete pollCount] in Ho. rewrite Ho, Hdl.
    destruct (IH (mkLoop false (S k))) as (I1 & I2 & I3 & I4);
      cbn [isComplete pollCount]; [ done | lia | lia | intros; apply Hq; lia | done | ].
    cbn [isComplete pollCount] in *.
    rewrite I1, I2, I3, I4.
    replace (n - k) with (S (n - S k)) by lia.
    repeat split; auto.
Qed.

(** ** The text form's [onSubmit] *)

#[local] Arguments while_loop : simpl never.
#[local] Arguments poll_for_report : simpl never.

Lemma poll_for_report_eq props env jobId :
  poll_for_report props env jobId =
  let l := while_loop maxPolls env jobId (mkLoop false 0) in
  match outcome l with
  | Returned st =>
      if isComplete st then ((events l ++ success_events props)%list, Returned tt)
      else (events l, Thrown (mkError timeout_message))
  | Thrown e => (events l, Thrown e)
  | OutOfFuel => (events l, OutOfFuel)
  end.
Proof.
  unfold poll_for_report, success_events.
  generalize (while_loop maxPolls env jobId (mkLoop false 0)).
  intros [t [st|e|]];
    unfold_async; simpl; try reflexivity.
  destruct (isComplete st); simpl; [ | rewrite ?app_nil_r; reflexivity ].
  destruct (onSuccess props); simpl; reflexivity.
Qed.

Lemma onSubmit_started props env text jobId :
  job_of_upload (upload_reply env) = Some jobId ->
  onSubmit props env text =
  let p := poll_for_report props env jobId in
  ((upload_events props env text ++
    [ConsoleLog ("✓ Job started: " ++ to_string jobId)] ++ events p ++
    match outcome p with
    | Thrown e => failure_events e
    | _ => []
    end)%list,
   match outcome p with
   | OutOfFuel => OutOfFuel
   | _ => Returned tt
   end).
Proof.
  unfold job_of_upload, onSubmit, upload_events, failure_events.
  destruct (upload_reply env) as [r|e]; [ | done ].
  destruct (ok r) eqn:Hok; [ | done ].
  unfold_async. simpl. rewrite Hok. simpl.
  destruct (json r) as [[]|]; intros H; try discriminate H; injection H as <-.
  all: match goal with
       | |- context [poll_for_report ?a ?b ?c] => generalize (poll_for_report a b c)
       end.
  all: intros [t [[]|e|]]; simpl; rewrite ?app_nil_r; reflexivity.
Qed.

Lemma onSubmit_not_started props env text :
  job_of_upload (upload_reply env) = None ->
  exists e, onSubmit props env text =
            ((upload_events props env text ++ failure_events e)%list, Returned tt).
Proof.
  unfold job_of_upload, onSubmit, upload_events, failure_events.
  unfold_async.
  destruct (upload_reply env) as [r|e]; simpl;
    [ | intros _; eexists (mkError _); reflexivity ].
  destruct (ok r) eqn:Hok; simpl.
  - destruct (json r) as [[]|]; intros H; try discriminate H; simpl;
      eexists (mkError _); reflexivity.
  - intros _. destruct (json r) as [[]|]; simpl; eexists (mkError _); reflexivity.
Qed.

(** With a job id that is a string, the loop only ever asks for that job. *)
Lemma while_loop_requests fuel env id st :
  Forall (fun ev => ev = Request GET (poll_url env id) None)
         (status_requests (events (while_loop fuel env (VStr id) st))).
Proof.
  revert st. induction fuel as [|fuel IH]; intros st.
  - unfold while_loop. destruct (_ && _); simpl; constructor.
  - rewrite while_loop_step. destruct (_ && _); [ | constructor ].
    rewrite events_bind, status_requests_app, poll_iteration_request.
    constructor; [ reflexivity | ].
    destruct (outcome _); simpl; [ apply IH | constructor | constructor ].
Qed.

Lemma poll_for_report_trace props env jobId :
  let l := while_loop maxPolls env jobId (mkLoop false 0) in
  let p := poll_for_report props env jobId in
  status_requests (events p) = status_requests (events l) /\
  delays (events p) = delays (events l) /\
  downloads (events p) = downloads (events l) /\
  posted_bodies (events p) = [] /\
  outcome p <> OutOfFuel.
Proof.
  intros l p.
  pose proof (while_loop_outcome maxPolls env jobId (mkLoop false 0)) as Ho.
  pose proof (while_loop_trace maxPolls env jobId (mkLoop false 0)) as (_ & _ & _ & _ & Hp).
  cbv zeta in Hp. fold l in Ho, Hp.
  subst p. rewrite poll_for_report_eq. cbv zeta. fold l.
  destruct (outcome l) as [st|e|].
  - destruct (isComplete st); unfold events at 1 3 5 7, outcome; simpl; [ | by rewrite Hp ].
    rewrite status_requests_app, delays_app, downloads_app, posted_bodies_app, Hp.
    unfold success_events. destruct (onSuccess props); simpl; by rewrite !app_nil_r.
  - unfold events at 1 3 5 7, outcome; simpl. by rewrite Hp.
  - exfalso. apply Ho. cbn. lia.
Qed.

(** [onSubmit] on any input: it returns, it posts once, and its polls are
    bounded and spaced. *)
Lemma onSubmit_trace props env text :
  let t := events (onSubmit props env text) in
  outcome (onSubmit props env text) = Returned tt /\
  posted_bodies t = [Some [("llm", FText (llm props)); ("text", FText text)]] /\
  length (status_requests t) <= maxPolls /\
  length (status_requests t) <= length (delays t) /\
  Forall (fun ms => ms = 1000) (delays t) /\
  (forall b, In b (downloads t) ->
     exists n, 1 <= n <= maxPolls /\ report_of (status_reply env n) = Some b).
Proof.
  destruct (job_of_upload (upload_reply env)) as [jobId|] eqn:Hjob.
  - pose proof (onSubmit_started props env text jobId Hjob) as E. cbv zeta in E.
    assert (Eo : outcome (onSubmit props env text) =
                 match outcome (poll_for_report props env jobId) with
                 | OutOfFuel => OutOfFuel
                 | _ => Returned tt
                 end) by (rewrite E; reflexivity).
    assert (Et : events (onSubmit props env text) =
                 (upload_events props env text ++
                  [ConsoleLog ("✓ Job started: " ++ to_string jobId)] ++
                  events (poll_for_report props env jobId) ++
                  match outcome (poll_for_report props env jobId) with
                  | Thrown e => failure_events e
                  | _ => []
                  end)%list) by (rewrite E; reflexivity).
    clear E. cbv zeta. rewrite Eo, Et. clear Eo Et.
    destruct (poll_for_report_trace props env jobId) as (Hs & Hd & Hdl & Hp & Ho).
    cbv zeta in Hs, Hd, Hdl, Hp, Ho.
    pose proof (while_loop_trace maxPolls env jobId (mkLoop false 0)) as (T1 & T2 & T3 & _).
    cbv zeta in T1, T2, T3. cbn [pollCount] in T1.
    rewrite !posted_bodies_app, !status_requests_app, !delays_app, !downloads_app.
    rewrite Hs, Hd, Hdl, Hp.
    assert (Htail : forall (o : Outcome unit),
      let tl := match o with Thrown e => failure_events e | _ => [] end in
      posted_bodies tl = [] /\ status_requests tl = [] /\ delays tl = [] /\
      downloads tl = []) by (intros [| |]; simpl; auto).
    destruct (Htail (outcome (poll_for_report props env jobId))) as (-> & -> & -> & ->).
    simpl. rewrite !app_nil_r.
    repeat split; auto; try lia.
    + by destruct (outcome (poll_for_report props env jobId)).
    + intros b Hin. apply while_loop_downloads in Hin as (n & Hn & Hrep).
      exists n. cbn [pollCount] in Hn. split; [lia | done].
  - destruct (onSubmit_not_started props env text Hjob) as (e & ->).
    unfold events, outcome, upload_events, failure_events; simpl.
    repeat split; auto; lia.
Qed.

Lemma onSubmit_events_started props env text jobId :
  job_of_upload (upload_reply env) = Some jobId ->
  events (onSubmit props env text) =
  (upload_events props env text ++
   [ConsoleLog ("✓ Job started: " ++ to_string jobId)] ++
   events (poll_for_report props env jobId) ++
   match outcome (poll_for_report props env jobId) with
   | Thrown e => failure_events e
   | _ => []
   end)%list.
Proof. intros H. rewrite (onSubmit_started _ _ _ _ H). reflexivity. Qed.

Lemma timeout_is_not_a_job_failure msg :
  timeout_message <> "Processing failed: " ++ msg.
Proof. discriminate. Qed.

(** ** The claims *)

(** C2: the polling loop waits one second before each status query and
    makes at most 600 of them, whatever the server answers; when none of
    the 600 replies carries a report or a reported failure, it stops after
    the 600th and raises its own timeout error, whose text differs from
    every "Processing failed: ..." error built from a server message. *)
Theorem polling_is_bounded_and_times_out :
  maxPolls = 600 /\
  (forall props env text,
     let t := events (onSubmit props env text) in
     outcome (onSubmit props env text) = Returned tt /\
     length (status_requests t) <= 600 /\
     length (status_requests t) <= length (delays t) /\
     Forall (fun ms => ms = 1000) (delays t)) /\
  (forall props env text jobId,
     job_of_upload (upload_reply env) = Some jobId ->
     (forall n, 1 <= n <= 600 -> quiet (status_reply env n) = true) ->
     let t := events (onSubmit props env text) in
     length (delays t) = 600 /\
     (forall id, jobId = VStr id ->
        status_requests t = replicate 600 (Request GET (poll_url env id) None)) /\
     downloads t = [] /\
     alerts t = ["❌ Error: " ++ timeout_message]) /\
  (forall msg, timeout_message <> "Processing failed: " ++ msg) /\
  startsWith timeout_message "Processing failed" = false.
Proof.
  split; [ reflexivity | ].
  split.
  { intros props env text.
    destruct (onSubmit_trace props env text) as (Ho & _ & Hs & Hsd & Hd & _).
    cbv zeta. auto. }
  split; [ | split; [ exact timeout_is_not_a_job_failure | reflexivity ] ].
  intros props env text jobId Hjob Hquiet. cbv zeta.
  rewrite (onSubmit_events_started props env text jobId Hjob).
  assert (Hq : forall n, pollCount (mkLoop false 0) < n <= maxPolls ->
                         quiet (status_reply env n) = true).
  { intros n Hn. apply Hquiet. cbn [pollCount] in Hn. unfold maxPolls in Hn. lia. }
  destruct (while_loop_quiet maxPolls env jobId (mkLoop false 0) eq_refl
              ltac:(cbn; unfold maxPolls; lia) ltac:(cbn; unfold maxPolls; lia) Hq)
    as (Ho & Hd & Hdl & Hs).
  cbn [pollCount] in Hd, Hs. rewrite Nat.sub_0_r in Hd, Hs.
  pose proof (poll_for_report_eq props env jobId) as E. cbv zeta in E.
  rewrite Ho in E. cbn [isComplete] in E.
  assert (Ep : events (poll_for_report props env jobId) =
               events (while_loop maxPolls env jobId (mkLoop false 0)))
    by (rewrite E; reflexivity).
  assert (Eo : outcome (poll_for_report props env jobId) =
               Thrown (mkError timeout_message))
    by (rewrite E; reflexivity).
  rewrite Ep, Eo. clear E Ep Eo.
  unfold upload_events, failure_events.
  rewrite !delays_app, !status_requests_app, !downloads_app, !alerts_app.
  pose proof (while_loop_trace maxPolls env jobId (mkLoop false 0)) as (_ & _ & _ & Ha & _).
  cbv zeta in Ha. rewrite Ha, Hdl. simpl. rewrite !app_nil_r.
  repeat split; auto.
Qed.

Lemma polling_is_bounded_and_times_out_witness :
  let t := events (onSubmit example_props never_done example_text) in
  length (delays t) = 600 /\
  (forall id, VStr example_job = VStr id ->
     status_requests t = replicate 600 (Request GET (poll_url never_done id) None)) /\
  downloads t = [] /\
  alerts t = ["❌ Error: " ++ timeout_message].
Proof.
  apply (proj1 (proj2 (proj2 polling_is_bounded_and_times_out))
           example_props never_done example_text (VStr example_job)).
  - reflexivity.
  - intros n _. reflexivity.
Defined.

(** C4, as stated, fails: the first poll is answered by a non-success
    response (status 500) whose JSON body has status "error", and the
    client neither stops nor shows the server's message: it polls 600 times
    and ends with its own timeout. *)
Lemma error_body_with_500_keeps_polling :
  let t := events (onSubmit example_props failed_with_500 example_text) in
  error_status_body (status_reply failed_with_500 1) = true /\
  length (status_requests t) = 600 /\
  alerts t = ["❌ Error: Processing timeout - took longer than 10 minutes"].
Proof. vm_compute. auto. Qed.

(** C4, amended: when a poll is answered by status 400 with a JSON body
    whose status is "error", after quiet replies to the polls before it,
    the client makes no further poll and alerts "Processing failed: "
    followed by the server's message. *)
Theorem job_error_stops_polling props env text id n msg :
  job_of_upload (upload_reply env) = Some (VStr id) ->
  1 <= n <= 600 ->
  (forall k, 1 <= k < n -> quiet (status_reply env k) = true) ->
  job_error_of (status_reply env n) = Some msg ->
  let t := events (onSubmit props env text) in
  status_requests t = replicate n (Request GET (poll_url env id) None) /\
  length (delays t) = n /\
  downloads t = [] /\
  alerts t = ["❌ Error: Processing failed: " ++ msg].
Proof.
  intros Hjob Hn Hquiet Herr. cbv zeta.
  rewrite (onSubmit_events_started props env text _ Hjob).
  assert (Hq : forall k, pollCount (mkLoop false 0) < k < n ->
                         quiet (status_reply env k) = true).
  { intros k Hk. apply Hquiet. cbn [pollCount] in Hk. lia. }
  destruct (while_loop_job_error maxPolls env id (mkLoop false 0) n msg eq_refl
              ltac:(cbn; unfold maxPolls; lia) ltac:(cbn; unfold maxPolls; lia) Hq Herr)
    as (Ho & Hd & Hdl & Hs).
  cbn [pollCount] in Hd, Hs. rewrite Nat.sub_0_r in Hd, Hs.
  pose proof (poll_for_report_eq props env (VStr id)) as E. cbv zeta in E.
  rewrite Ho in E.
  assert (Ep : events (poll_for_report props env (VStr id)) =
               events (while_loop maxPolls env (VStr id) (mkLoop false 0)))
    by (rewrite E; reflexivity).
  assert (Eo : outcome (poll_for_report props env (VStr id)) =
               Thrown (mkError ("Processing failed: " ++ msg)))
    by (rewrite E; reflexivity).
  rewrite Ep, Eo. clear E Ep Eo.
  unfold upload_events, failure_events.
  rewrite !delays_app, !status_requests_app, !downloads_app, !alerts_app.
  pose proof (while_loop_trace maxPolls env (VStr id) (mkLoop false 0))
    as (_ & _ & _ & Ha & _).
  cbv zeta in Ha. rewrite Ha, Hdl, Hs. simpl. rewrite !app_nil_r.
  repeat split; auto.
Qed.

Lemma job_error_stops_polling_witness :
  let t := events (onSubmit example_props failed_with_400 example_text) in
  status_requests t =
    replicate 3 (Request GET (poll_url failed_with_400 example_job) None) /\
  length (delays t) = 3 /\
  downloads t = [] /\
  alerts t = ["❌ Error: Processing failed: " ++ "BackendUnavailable"].
Proof.
  apply (job_error_stops_polling example_props failed_with_400 example_text
           example_job 3 "BackendUnavailable").
  - reflexivity.
  - lia.
  - intros k Hk. assert (k = 1 \/ k = 2) as [-> | ->] by lia; reflexivity.
  - reflexivity.
Defined.

(** A named failure makes the [try] block throw. *)
Lemma named_failure_throws env id n :
  named_failure (status_reply env n) = true ->
  exists e, outcome (poll_attempt env (VStr id) n) = Thrown e.
Proof.
  unfold named_failure, poll_attempt. unfold_async. simpl.
  destruct (status_reply env n) as [r|e0]; simpl; [ | by eexists ].
  destruct (ok r) eqn:Hok; simpl.
  - destruct (is_pdf (content_type r)); simpl; [ done | ].
    destruct (json r); [ done | by eexists ].
  - intros _. destruct (json r) as [v|]; simpl; [ | by eexists ].
    destruct (status r =? 400)%nat; simpl; [ | by eexists ].
    destruct v; simpl; try by eexists.
    destruct (strict_eq_str _ _); simpl; by eexists.
Qed.

(** C9: a poll that fails in any way other than by a status-400 reply with
    status "error" does not end the loop: the iteration returns with the
    poll counted, the error is written to the console, and the state is
    otherwise as before; a network failure, an error response and an
    unparsable status body are such failures.  An iteration throws only
    for the status-400 reply with status "error".  The browser's own
    exception messages are taken not to begin with "Processing failed". *)
Theorem poll_failures_are_swallowed env jobId st :
  let n := S (pollCount st) in
  let reply := status_reply env n in
  benign reply = true ->
  (job_error_of reply = None ->
   exists st',
     outcome (poll_iteration env jobId st) = Returned st' /\
     pollCount st' = S (pollCount st) /\
     forall e, outcome (poll_attempt env jobId n) = Thrown e ->
       st' = mkLoop (isComplete st) n /\
       events (poll_iteration env jobId st) =
         (Delay 1000 :: events (poll_attempt env jobId n) ++
          [ConsoleError ("Poll error: " ++ message e)])%list) /\
  (forall id, jobId = VStr id -> named_failure reply = true ->
     exists e, outcome (poll_attempt env jobId n) = Thrown e) /\
  (forall e, outcome (poll_iteration env jobId st) = Thrown e ->
     exists msg, job_error_of reply = Some msg /\
                 e = mkError ("Processing failed: " ++ msg)) /\
  (forall fuel st',
     isComplete st = false -> pollCount st < maxPolls ->
     outcome (poll_iteration env jobId st) = Returned st' ->
     events (while_loop (S fuel) env jobId st) =
       (events (poll_iteration env jobId st) ++
        events (while_loop fuel env jobId st'))%list).
Proof.
  intros n reply Hb. subst n reply.
  destruct (poll_iteration_spec env jobId st) as (t & o & E & Hspec & _).
  pose proof (poll_iteration_eq env jobId st) as E'. cbv zeta in E'.
  repeat split.
  - intros Hnone.
    assert (Eo : outcome (poll_iteration env jobId st) = o) by (rewrite E; reflexivity).
    rewrite E' in Eo |- *. unfold outcome at 1 in Eo. unfold outcome at 1, events at 1.
    cbn [fst snd] in Eo |- *.
    destruct (outcome (poll_attempt env jobId (S (pollCount st)))) as [c|e|] eqn:Ha.
    + eexists. split; [ reflexivity | ]. split; [ reflexivity | ]. intros e [=].
    + destruct (startsWith (message e) "Processing failed") eqn:Hsw.
      * subst o. inversion Hspec as [ | | e' Hdl Hsw' Hmsg]; subst.
        destruct (Hmsg Hb) as (msg & Hsome & _). congruence.
      * eexists. split; [ reflexivity | ]. split; [ reflexivity | ].
        intros e' [= <-]. split; reflexivity.
    + by destruct (poll_attempt_total env jobId (S (pollCount st))).
  - intros id -> Hnamed. by apply named_failure_throws.
  - intros e He. rewrite E in He. unfold outcome in He. cbn [snd] in He. subst o.
    inversion Hspec as [ | | e' Hdl Hsw Hmsg]; subst. auto.
  - intros fuel st' Hc Hlt Ho. rewrite while_loop_step, Hc.
    apply Nat.ltb_lt in Hlt. rewrite Hlt. cbn [negb andb].
    by rewrite events_bind, Ho.
Qed.

Lemma poll_failures_are_swallowed_witness :
  exists st',
    outcome (poll_iteration garbled (VStr example_job) (mkLoop false 0)) =
      Returned st' /\
    pollCount st' = 1 /\
    forall e,
      outcome (poll_attempt garbled (VStr example_job) 1) = Thrown e ->
      st' = mkLoop false 1 /\
      events (poll_iteration garbled (VStr example_job) (mkLoop false 0)) =
        (Delay 1000 :: events (poll_attempt garbled (VStr example_job) 1) ++
         [ConsoleError ("Poll error: " ++ message e)])%list.
Proof.
  apply (proj1 (poll_failures_are_swallowed garbled (VStr example_job)
                  (mkLoop false 0) eq_refl)).
  reflexivity.
Defined.

(** C3: for a 2xx reply to a poll the client looks at the declared content
    type and at nothing else to choose between the two shapes.  When the
    content type contains "application/pdf" the body is taken as the
    report's bytes and handed to the user, and what the body would parse to
    as JSON has no influence; otherwise the body is parsed as JSON, its
    status and progress are logged, nothing is downloaded, and the raw
    bytes have no influence. *)
Theorem status_shape_is_chosen_by_content_type env id n r :
  status_reply env n = Fulfilled r ->
  ok r = true ->
  (is_pdf (content_type r) = true <->
   exists ct, content_type r = Some ct /\ includes ct "application/pdf" = true) /\
  (is_pdf (content_type r) = true ->
   (forall bytes, blob r = Fulfilled bytes ->
      outcome (poll_attempt env (VStr id) n) = Returned true /\
      downloads (events (poll_attempt env (VStr id) n)) = [bytes]) /\
   (forall env' r',
      VITE_API_URL env' = VITE_API_URL env ->
      status_reply env' n = Fulfilled r' -> ok r' = true ->
      content_type r' = content_type r -> blob r' = blob r ->
      poll_attempt env' (VStr id) n = poll_attempt env (VStr id) n)) /\
  (is_pdf (content_type r) = false ->
   downloads (events (poll_attempt env (VStr id) n)) = [] /\
   (forall fields, json r = Fulfilled (VObj fields) ->
      outcome (poll_attempt env (VStr id) n) = Returned false /\
      last (events (poll_attempt env (VStr id) n)) =
        Some (ConsoleLog ("Status: " ++ to_string (default VUndefined (assoc "status" fields)) ++
                          " | Progress: " ++
                          to_string (default VUndefined (assoc "progress" fields)) ++ "%"))) /\
   (forall env' r',
      VITE_API_URL env' = VITE_API_URL env ->
      status_reply env' n = Fulfilled r' -> ok r' = true ->
      content_type r' = content_type r -> json r' = json r ->
      poll_attempt env' (VStr id) n = poll_attempt env (VStr id) n)).
Proof.
  intros Hr Hok. split; [ | split ].
  - unfold is_pdf. destruct (content_type r) as [ct|]; split.
    + intros [_ H]%andb_true_iff. eauto.
    + intros (ct' & [= <-] & H). rewrite H, andb_true_r.
      destruct ct; [ discriminate H | reflexivity ].
    + discriminate.
    + intros (ct' & [=] & _).
  - intros Hpdf. split.
    + intros bytes Hblob. unfold poll_attempt. unfold_async. simpl.
      rewrite Hr. simpl. rewrite Hok. simpl. rewrite Hpdf, Hblob. simpl. auto.
    + intros env' r' Hurl Hr' Hok' Hct Hblob.
      unfold poll_attempt, API_URL. unfold_async. simpl.
      rewrite Hr, Hr', Hurl. simpl. rewrite Hok, Hok'. simpl.
      rewrite Hct, Hpdf, Hblob. reflexivity.
  - intros Hpdf. split; [ | split ].
    + destruct (poll_attempt_spec env (VStr id) n) as [Hspec _].
      inversion Hspec as [b Hrep | | | ]; try done.
      unfold report_of in Hrep. by rewrite Hr, Hok, Hpdf in Hrep.
    + intros fields Hjson. unfold poll_attempt. unfold_async. simpl.
      rewrite Hr. simpl. rewrite Hok. simpl. rewrite Hpdf, Hjson. simpl. auto.
    + intros env' r' Hurl Hr' Hok' Hct Hjson.
      unfold poll_attempt, API_URL. unfold_async. simpl.
      rewrite Hr, Hr', Hurl. simpl. rewrite Hok, Hok'. simpl.
      rewrite Hct, Hpdf, Hjson. reflexivity.
Qed.

Lemma status_shape_is_chosen_by_content_type_witness :
  outcome (poll_attempt done_at_second (VStr example_job) 2) = Returned true /\
  downloads (events (poll_attempt done_at_second (VStr example_job) 2)) =
    [report_bytes].
Proof.
  apply (proj1 (proj1 (proj2 (status_shape_is_chosen_by_content_type
           done_at_second example_job 2 pdf_response eq_refl eq_refl))
           eq_refl)).
  reflexivity.
Defined.

Lemma poll_attempt_ext env env' jobId n :
  VITE_API_URL env = VITE_API_URL env' ->
  (forall k, status_reply env k = status_reply env' k) ->
  poll_attempt env jobId n = poll_attempt env' jobId n.
Proof.
  intros Hurl Hrep. unfold poll_attempt, API_URL. by rewrite Hurl, Hrep.
Qed.

Lemma while_loop_ext fuel env env' jobId st :
  VITE_API_URL env = VITE_API_URL env' ->
  (forall k, status_reply env k = status_reply env' k) ->
  while_loop fuel env jobId st = while_loop fuel env' jobId st.
Proof.
  intros Hurl Hrep. revert st. induction fuel as [|fuel IH]; intros st; [ reflexivity | ].
  rewrite !while_loop_step. destruct (_ && _); [ | reflexivity ].
  rewrite !poll_iteration_eq. cbv zeta.
  rewrite (poll_attempt_ext env env' jobId _ Hurl Hrep).
  unfold bind. destruct (outcome _) as [c|e|]; try reflexivity.
  - by rewrite IH.
  - destruct (startsWith _ _); [ reflexivity | by rewrite IH ].
Qed.

(** The first poll is always made once a job id (a string) is known. *)
Lemma while_loop_polls_once env id :
  status_requests (events (while_loop maxPolls env (VStr id) (mkLoop false 0))) <> [].
Proof.
  change maxPolls with (S 599) at 1. rewrite while_loop_step.
  cbn [isComplete pollCount negb]. change (0 <? maxPolls)%nat with true.
  cbn [andb]. rewrite events_bind, status_requests_app, poll_iteration_request.
  discriminate.
Qed.

Lemma contact_form_trace props env file :
  let t := events (ContactForm.onSubmit props env file) in
  status_requests t = [] /\
  delays t = [] /\
  (forall body, In body (posted_bodies t) ->
     exists f, file = Some f /\ body = Some [("file", FFile f)]) /\
  (forall b, In b (downloads t) ->
     exists r, ContactForm.upload_reply env = Fulfilled r /\ ok r = true /\
               blob r = Fulfilled b).
Proof.
  unfold ContactForm.onSubmit. unfold_async.
  destruct file as [f|]; simpl; [ | repeat split; auto; intros ? [] ].
  destruct (ContactForm.upload_reply env) as [r|e]; simpl.
  - destruct (ok r) eqn:Hok; simpl.
    + destruct (blob r) as [b|e] eqn:Hb; simpl.
      * destruct (ContactForm.onSuccess props); simpl; repeat split; auto.
        all: try (intros ? [<-|[]]; eauto).
      * repeat split; auto.
        all: try (intros ? [<-|[]]; eauto). intros ? [].
    + destruct (json r) as [[]|]; simpl; repeat split; auto.
      all: try (intros ? [<-|[]]; eauto).
      all: intros ? [].
  - repeat split; auto. all: try (intros ? [<-|[]]; eauto). intros ? [].
Qed.

(** C1 at a server that follows the job protocol, answering every upload
    with the id of the job it has started.  The file form makes no status
    poll at all and hands the body of the reply to the submission (the JSON
    text with the job id) to the user as the report.  The text form,
    talking to the same server, polls twice and hands over the body of the
    reply to its second poll. *)
Lemma file_form_downloads_the_submission_response :
  let file_run :=
    events (ContactForm.onSubmit (ContactForm.mkProps true "Gemini")
                                 job_started (Some example_file)) in
  let text_run := events (onSubmit example_props done_at_second example_text) in
  ContactForm.upload_reply job_started = upload_reply done_at_second /\
  status_requests file_run = [] /\
  downloads file_run = [json_bytes [("job_id", quoted example_job)]] /\
  length (status_requests text_run) = 2 /\
  downloads text_run = [report_bytes].
Proof. vm_compute. auto. Qed.

(** What the two forms do with the reply to the submission, whatever the
    server answers.  In the text form that reply is read for the job id
    only; every file handed to the user is the report carried by the reply
    to one of the (at most 600) status polls, the polls ask for the job
    named in the reply to the submission, at least one is made once that
    job id is known, and without a job id nothing is polled or downloaded.
    The file form makes no status poll: what it downloads is the body of
    the reply to the submission. *)
Theorem report_comes_from_a_status_poll :
  (forall props env text,
     let t := events (onSubmit props env text) in
     (forall b, In b (downloads t) ->
        exists n, 1 <= n <= 600 /\ report_of (status_reply env n) = Some b) /\
     (forall id, job_of_upload (upload_reply env) = Some (VStr id) ->
        status_requests t <> [] /\
        Forall (fun ev => ev = Request GET (poll_url env id) None) (status_requests t)) /\
     (job_of_upload (upload_reply env) = None ->
        status_requests t = [] /\ downloads t = []) /\
     (forall env' r r',
        VITE_API_URL env' = VITE_API_URL env ->
        (forall n, status_reply env' n = status_reply env n) ->
        upload_reply env = Fulfilled r -> upload_reply env' = Fulfilled r' ->
        status r' = status r -> statusText r' = statusText r -> json r' = json r ->
        onSubmit props env' text = onSubmit props env text)) /\
  (forall props env file,
     let t := events (ContactForm.onSubmit props env file) in
     status_requests t = [] /\
     forall b, In b (downloads t) ->
       exists r, ContactForm.upload_reply env = Fulfilled r /\ ok r = true /\
                 blob r = Fulfilled b).
Proof.
  split.
  - intros props env text. cbv zeta. repeat split.
    + intros b Hin.
      destruct (onSubmit_trace props env text) as (_ & _ & _ & _ & _ & Hdl).
      apply Hdl in Hin as (n & Hn & Hrep). exists n. unfold maxPolls in Hn. auto.
    + rewrite (onSubmit_events_started props env text _ H).
      destruct (poll_for_report_trace props env (VStr id)) as (Hs & _).
      cbv zeta in Hs. unfold upload_events.
      rewrite !status_requests_app, Hs. simpl.
      intros E. apply app_eq_nil in E as [E _].
      by apply while_loop_polls_once in E.
    + rewrite (onSubmit_events_started props env text _ H).
      destruct (poll_for_report_trace props env (VStr id)) as (Hs & _).
      cbv zeta in Hs. unfold upload_events.
      rewrite !status_requests_app, Hs. simpl.
      apply Forall_app. split; [ apply while_loop_requests | ].
      destruct (outcome _); constructor.
    + destruct (onSubmit_not_started props env text H) as (e & ->). reflexivity.
    + destruct (onSubmit_not_started props env text H) as (e & ->). reflexivity.
    + intros env' r r' Hurl Hrep Hr Hr' Hst Htxt Hjson.
      assert (Hpoll : forall jobId,
                poll_for_report props env' jobId = poll_for_report props env jobId).
      { intros jobId. unfold poll_for_report.
        by rewrite (while_loop_ext maxPolls env' env _ _ Hurl Hrep). }
      unfold onSubmit, API_URL, ok. unfold_async.
      rewrite Hr, Hr', Hurl, Hst, Htxt, Hjson.
      destruct (json r) as [v|e]; [ destruct v | ]; destruct (_ && _);
        cbn [negb]; cbv beta iota; rewrite ?Hpoll; reflexivity.
  - intros props env file.
    destruct (contact_form_trace props env file) as (Hs & _ & _ & Hdl). auto.
Qed.

(** ** The forms' validation and request bodies *)

Lemma text_rules_spec (value : string) :
  RHF.validateField text_rules value =
  if String.eqb value "" then Some "Please enter text to analyze"
  else if (js_length value <? 10)%nat then Some "Text must be at least 10 characters"
  else None.
Proof. reflexivity. Qed.

(** C5, as stated, fails: a text of ten spaces is whitespace only, and the
    form lets it through: the handler runs and the text is posted as it
    is. *)
Lemma whitespace_of_length_ten_is_submitted :
  js_length ten_spaces = 10 /\
  submit example_props never_done ten_spaces =
    RHF.Handled (onSubmit example_props never_done ten_spaces) /\
  posted_bodies (RHF.events_of (submit example_props never_done ten_spaces)) =
    [Some [("llm", FText "Gemini"); ("text", FText ten_spaces)]].
Proof.
  split; [ reflexivity | ]. split; [ reflexivity | ].
  unfold submit, RHF.handleSubmit. rewrite text_rules_spec.
  change (String.eqb ten_spaces "") with false.
  change (js_length ten_spaces <? 10)%nat with false. cbv iota.
  cbn [RHF.events_of].
  by destruct (onSubmit_trace example_props never_done ten_spaces) as (_ & -> & _).
Qed.

(** C5, amended: a text that is empty or shorter than 10 characters,
    counted as [value.length] counts them (in UTF-16 code units), is
    rejected by the form before anything is sent (no request, so no job);
    the text is not trimmed: one of 10 or more characters, whatever they
    are, is handed to [onSubmit]. *)
Theorem short_text_is_rejected_before_any_request props env text :
  (js_length text < 10 ->
   exists msg, submit props env text = RHF.Invalid msg /\
               RHF.events_of (submit props env text) = [] /\
               (text = "" -> msg = "Please enter text to analyze") /\
               (text <> "" -> msg = "Text must be at least 10 characters")) /\
  (10 <= js_length text ->
   submit props env text = RHF.Handled (onSubmit props env text) /\
   posted_bodies (RHF.events_of (submit props env text)) =
     [Some [("llm", FText (llm props)); ("text", FText text)]]).
Proof.
  pose proof (onSubmit_trace props env text) as (_ & Hposted & _).
  unfold submit, RHF.handleSubmit. rewrite text_rules_spec. split.
  - intros Hlen. destruct (String.eqb_spec text "") as [->|Hne].
    + eexists. split; [ reflexivity | ]. split; [ reflexivity | ].
      split; [ reflexivity | congruence ].
    + apply Nat.ltb_lt in Hlen. rewrite Hlen.
      eexists. split; [ reflexivity | ]. split; [ reflexivity | ].
      split; [ congruence | reflexivity ].
  - intros Hlen. destruct (String.eqb_spec text "") as [->|Hne].
    + simpl in Hlen. lia.
    + apply Nat.ltb_ge in Hlen. rewrite Hlen. split; [ reflexivity | exact Hposted ].
Qed.

Lemma short_text_is_rejected_before_any_request_witness :
  exists msg, submit example_props never_done four_check_marks = RHF.Invalid msg /\
              RHF.events_of (submit example_props never_done four_check_marks) = [] /\
              (four_check_marks = "" -> msg = "Please enter text to analyze") /\
              (four_check_marks <> "" -> msg = "Text must be at least 10 characters").
Proof.
  apply (proj1 (short_text_is_rejected_before_any_request
                  example_props never_done four_check_marks)).
  vm_compute. lia.
Defined.

(** C6: the strategy values are the six listed ones, once each, one menu
    item per value; the selected strategy starts as "simple", every item
    selects its own value, and whatever the user does in the dialog the
    selected strategy is one of the six. *)
Theorem prompt_options_are_the_six_strategies :
  map DataUploadTxt.value DataUploadTxt.PROMPT_OPTIONS =
    ["simple"; "structured"; "feature_extraction"; "chain_of_thought";
     "few_shot"; "free_form"] /\
  NoDup (map DataUploadTxt.value DataUploadTxt.PROMPT_OPTIONS) /\
  length DataUploadTxt.menu_labels = 6 /\
  Forall (fun i => forall s,
            Some (DataUploadTxt.selectedPrompt
                    (DataUploadTxt.step s (DataUploadTxt.ClickPrompt i))) =
            DataUploadTxt.value <$> DataUploadTxt.PROMPT_OPTIONS !! i)
         [0; 1; 2; 3; 4; 5] /\
  (forall actions,
     In (DataUploadTxt.selectedPrompt (DataUploadTxt.run actions))
        (map DataUploadTxt.value DataUploadTxt.PROMPT_OPTIONS)) /\
  (forall actions,
     DepressionDetectorForm.prompt (DataUploadTxt.form_props (DataUploadTxt.run actions)) =
     DataUploadTxt.selectedPrompt (DataUploadTxt.run actions)).
Proof.
  split; [ reflexivity | ].
  split; [ apply (bool_decide_unpack _); vm_compute; exact I | ].
  split; [ reflexivity | ].
  split; [ repeat constructor | ].
  split; [ | reflexivity ].
  intros actions. unfold DataUploadTxt.run.
  assert (H0 : In (DataUploadTxt.selectedPrompt DataUploadTxt.initial)
                  (map DataUploadTxt.value DataUploadTxt.PROMPT_OPTIONS))
    by (simpl; auto).
  revert H0. generalize DataUploadTxt.initial.
  induction actions as [|a actions IH]; intros s Hs; [ exact Hs | ].
  simpl foldl. apply IH.
  destruct a as [b|i|i|]; cbn [DataUploadTxt.step].
  - exact Hs.
  - by destruct (DataUploadTxt.MODEL_ITEMS !! i).
  - destruct (DataUploadTxt.PROMPT_OPTIONS !! i) as [o|] eqn:Hi; [ | exact Hs ].
    cbn [DataUploadTxt.selectedPrompt].
    apply in_map, list_elem_of_In. by eapply list_elem_of_lookup_2.
  - exact Hs.
Qed.

(** C7: whatever is selected in the text-upload dialog, a submission from
    it posts at most one request, whose body has the two fields "llm" (the
    selected model) and "text" (the text entered), in this order, and no
    other; the strategy selected in the dialog reaches the form as the
    [prompt] prop and changes nothing of what the form does. *)
Theorem text_submission_carries_llm_and_text_only s env text :
  let sent := posted_bodies (RHF.events_of (DataUploadTxt.submit s env text)) in
  let body : FormData :=
    [("llm", FText (DataUploadTxt.selectedLLM s)); ("text", FText text)] in
  (sent = [] \/ sent = [Some body]) /\
  (10 <= js_length text -> sent = [Some body]) /\
  field_names body = ["llm"; "text"] /\
  (forall onSuccess llm prompt prompt',
     DepressionDetectorForm.submit (mkProps onSuccess llm prompt) env text =
     DepressionDetectorForm.submit (mkProps onSuccess llm prompt') env text) /\
  (forall s', DataUploadTxt.selectedLLM s' = DataUploadTxt.selectedLLM s ->
     DataUploadTxt.submit s' env text = DataUploadTxt.submit s env text).
Proof.
  cbv zeta. unfold DataUploadTxt.submit, submit, RHF.handleSubmit.
  assert (Hsent : posted_bodies (events (onSubmit (DataUploadTxt.form_props s) env text)) =
                  [Some [("llm", FText (DataUploadTxt.selectedLLM s)); ("text", FText text)]])
    by (by destruct (onSubmit_trace (DataUploadTxt.form_props s) env text) as (_ & -> & _)).
  repeat split.
  - destruct (RHF.validateField text_rules text); simpl; auto.
  - intros Hlen. rewrite text_rules_spec.
    destruct (String.eqb_spec text "") as [->|Hne]; [ simpl in Hlen; lia | ].
    apply Nat.ltb_ge in Hlen. rewrite Hlen. exact Hsent.
  - intros s' Hllm. unfold DataUploadTxt.form_props. rewrite Hllm.
    destruct (RHF.validateField text_rules text); reflexivity.
Qed.

Lemma text_submission_carries_llm_and_text_only_witness :
  posted_bodies (RHF.events_of
    (DataUploadTxt.submit (DataUploadTxt.mkState true "Kimi" "few_shot")
                          never_done example_text)) =
  [Some [("llm", FText "Kimi"); ("text", FText example_text)]].
Proof.
  apply (proj1 (proj2 (text_submission_carries_llm_and_text_only
           (DataUploadTxt.mkState true "Kimi" "few_shot") never_done example_text))).
  vm_compute. lia.
Defined.

(** C8: whatever model is selected in the file-upload dialog, a submission
    from it posts at most one request, whose body has the single field
    "file"; the form does not bind the [llm] prop, and what it does is the
    same for every value of it. *)
Theorem file_submission_carries_the_file_only s env file :
  let sent := posted_bodies (RHF.events_of (DataUpload.submit s env file)) in
  (forall body, In body sent ->
     exists f, file = Some f /\ body = Some [("file", FFile f)] /\
               field_names [("file", FFile f)] = ["file"]) /\
  (forall f, file = Some f -> sent = [Some [("file", FFile f)]]) /\
  (forall onSuccess llm llm',
     ContactForm.submit (ContactForm.mkProps onSuccess llm) env file =
     ContactForm.submit (ContactForm.mkProps onSuccess llm') env file) /\
  (forall s', DataUpload.submit s' env file = DataUpload.submit s env file).
Proof.
  cbv zeta. unfold DataUpload.submit, ContactForm.submit.
  destruct file as [f|]; repeat split; try done.
  - intros body Hin. cbn [RHF.events_of] in Hin.
    destruct (contact_form_trace (DataUpload.form_props s) env (Some f))
      as (_ & _ & Hp & _).
    destruct (Hp body Hin) as (f' & [= <-] & ->). eauto.
  - intros f' [= <-]. cbn [RHF.events_of].
    unfold ContactForm.onSubmit. unfold_async. simpl.
    destruct (ContactForm.upload_reply env) as [r|e]; simpl; [ | reflexivity ].
    destruct (ok r); simpl.
    + destruct (blob r); reflexivity.
    + destruct (json r) as [[]|]; reflexivity.
Qed.

Lemma file_submission_carries_the_file_only_witness :
  posted_bodies (RHF.events_of
    (DataUpload.submit (DataUpload.mkState true "Kimi") job_started
                       (Some example_file))) =
  [Some [("file", FFile example_file)]].
Proof.
  apply (proj1 (proj2 (file_submission_carries_the_file_only
           (DataUpload.mkState true "Kimi") job_started (Some example_file)))
           example_file).
  reflexivity.
Defined.

(** ** The job store *)

Section Orchestrator.

Import JobOrchestrator.

Lemma views_of_app jobId (r1 r2 : list Reply) :
  views_of jobId (r1 ++ r2) = (views_of jobId r1 ++ views_of jobId r2)%list.
Proof.
  induction r1 as [|[r|id r] r1 IH]; simpl; [ done | done | ].
  destruct (String.eqb id jobId); simpl; congruence.
Qed.

Lemma transition_other o jobId id t :
  id <> jobId -> jobs (transition o id t) !! jobId = jobs o !! jobId.
Proof.
  intros Hne. unfold transition. destruct (jobs o !! id ≫= t); [ | done ].
  cbn [jobs]. by rewrite lookup_insert_ne.
Qed.

Lemma transition_issued o id t : issued (transition o id t) = issued o.
Proof. unfold transition. by destruct (jobs o !! id ≫= t). Qed.

(** No transition is enabled on a terminal job. *)
Lemma terminal_is_final j :
  terminal (status j) = true ->
  begin j = None /\ (forall p, advance p j = None) /\
  (forall out now, finish out now j = None).
Proof. unfold begin, advance, finish. by destruct (status j). Qed.

Lemma transition_terminal o jobId j t :
  jobs o !! jobId = Some j -> t j = None -> transition o jobId t = o.
Proof. intros Hj Ht. unfold transition. by rewrite Hj; simpl; rewrite Ht. Qed.

Lemma transition_absent o jobId id t :
  jobs o !! jobId = None -> jobs (transition o id t) !! jobId = None.
Proof.
  intros Hj. destruct (decide (id = jobId)) as [->|Hne].
  - unfold transition. by rewrite Hj.
  - by rewrite transition_other.
Qed.

Lemma expire_other o jobId id :
  id <> jobId -> jobs (expire o id) !! jobId = jobs o !! jobId.
Proof.
  intros Hne. unfold expire. destruct (jobs o !! id) as [j|]; [ | done ].
  destruct (terminal (status j)); [ | done ]. cbn [jobs]. by rewrite lookup_delete_ne.
Qed.

Lemma expire_issued o id : issued (expire o id) = issued o.
Proof.
  unfold expire. destruct (jobs o !! id) as [j|]; [ | done ].
  by destruct (terminal (status j)).
Qed.

Lemma expire_absent o jobId id :
  jobs o !! jobId = None -> jobs (expire o id) !! jobId = None.
Proof.
  intros Hj. destruct (decide (id = jobId)) as [->|Hne].
  - unfold expire. by rewrite Hj.
  - by rewrite expire_other.
Qed.

(** A submission leaves every id that was issued as it finds it. *)
Lemma submit_issued o inputText providerName strategy now jobId :
  jobId ∈ issued o ->
  jobs (submit o inputText providerName strategy now).2 !! jobId = jobs o !! jobId /\
  jobId ∈ issued (submit o inputText providerName strategy now).2.
Proof.
  intros Hin. unfold submit. destruct (_ && _); [ | done ]. cbn [snd jobs issued].
  split; [ | apply elem_of_union; by right ].
  apply lookup_insert_ne. intros Heq. apply (is_fresh (issued o)). by rewrite Heq.
Qed.

(** One event, seen from a terminal job that is stored. *)
Lemma handle_terminal o jobId j ev :
  jobId ∈ issued o -> jobs o !! jobId = Some j -> terminal (status j) = true ->
  let r := handle o ev in
  jobId ∈ issued r.2 /\
  (views_of jobId r.1 = [] \/ views_of jobId r.1 = [inr (view_of j)]) /\
  (jobs r.2 !! jobId = Some j \/ ev = Expire jobId /\ jobs r.2 !! jobId = None).
Proof.
  intros Hin Hj Hterm. cbv zeta.
  destruct (terminal_is_final j Hterm) as (Hb & Hp & Hf).
  destruct ev as [inputText providerName strategy now|id|id|id p|id out now|id];
    cbn [handle fst snd views_of].
  - destruct (submit_issued o inputText providerName strategy now jobId Hin) as [-> ?].
    auto.
  - unfold getStatus. destruct (String.eqb_spec id jobId) as [->|Hne].
    + rewrite Hj. cbn [fst snd]. auto.
    + destruct (jobs o !! id); cbn [fst snd]; auto.
  - rewrite transition_issued. split; [ done | ]. split; [ auto | left ].
    destruct (decide (id = jobId)) as [->|Hne];
      [ by rewrite (transition_terminal o jobId j) | by rewrite transition_other ].
  - rewrite transition_issued. split; [ done | ]. split; [ auto | left ].
    destruct (decide (id = jobId)) as [->|Hne];
      [ by rewrite (transition_terminal o jobId j) | by rewrite transition_other ].
  - rewrite transition_issued. split; [ done | ]. split; [ auto | left ].
    destruct (decide (id = jobId)) as [->|Hne];
      [ by rewrite (transition_terminal o jobId j) | by rewrite transition_other ].
  - rewrite expire_issued. split; [ done | ]. split; [ auto | ].
    destruct (decide (id = jobId)) as [->|Hne].
    + right. split; [ done | ]. unfold expire. rewrite Hj, Hterm. cbn [jobs].
      apply lookup_delete_eq.
    + left. by rewrite expire_other.
Qed.

(** One event, seen from an id that was issued and is no longer stored. *)
Lemma handle_expired o jobId ev :
  jobId ∈ issued o -> jobs o !! jobId = None ->
  let r := handle o ev in
  jobId ∈ issued r.2 /\
  (views_of jobId r.1 = [] \/ views_of jobId r.1 = [inl not_found]) /\
  jobs r.2 !! jobId = None.
Proof.
  intros Hin Hj. cbv zeta.
  destruct ev as [inputText providerName strategy now|id|id|id p|id out now|id];
    cbn [handle fst snd views_of].
  - destruct (submit_issued o inputText providerName strategy now jobId Hin) as [-> ?].
    auto.
  - unfold getStatus. destruct (String.eqb_spec id jobId) as [->|Hne].
    + rewrite Hj. cbn [fst snd]. auto.
    + destruct (jobs o !! id); cbn [fst snd]; auto.
  - rewrite transition_issued. auto using transition_absent.
  - rewrite transition_issued. auto using transition_absent.
  - rewrite transition_issued. auto using transition_absent.
  - rewrite expire_issued. auto using expire_absent.
Qed.

Lemma run_expired evs o jobId :
  jobId ∈ issued o -> jobs o !! jobId = None ->
  Forall (fun r => r = inl not_found) (views_of jobId (run o evs).1) /\
  jobs (run o evs).2 !! jobId = None.
Proof.
  revert o. induction evs as [|ev evs IH]; intros o Hin Hj; [ by split | ].
  cbn [run fst snd]. rewrite views_of_app.
  destruct (handle_expired o jobId ev Hin Hj) as (Hin' & Hv & Hj').
  destruct (IH _ Hin' Hj') as [IHv IHj]. split; [ | done ].
  apply Forall_app. split; [ | done ].
  destruct Hv as [->| ->]; by repeat constructor.
Qed.

Lemma run_terminal evs o jobId j :
  jobId ∈ issued o -> jobs o !! jobId = Some j -> terminal (status j) = true ->
  Forall (fun r => r = inr (view_of j) \/ r = inl not_found)
         (views_of jobId (run o evs).1) /\
  (jobs (run o evs).2 !! jobId = Some j \/ jobs (run o evs).2 !! jobId = None) /\
  (~ In (Expire jobId) evs ->
   Forall (fun r => r = inr (view_of j)) (views_of jobId (run o evs).1) /\
   jobs (run o evs).2 !! jobId = Some j).
Proof.
  intros Hin Hj Hterm. revert o Hin Hj.
  induction evs as [|ev evs IH]; intros o Hin Hj.
  { cbn. split; [ done | ]. split; [ by left | done ]. }
  cbn [run fst snd]. rewrite views_of_app.
  destruct (handle_terminal o jobId j ev Hin Hj Hterm) as (Hin' & Hv & Hj').
  cbv zeta in Hin', Hv, Hj'.
  assert (Forall (fun r => r = inr (view_of j)) (views_of jobId (handle o ev).1)) as Hv'
    by (destruct Hv as [->| ->]; by repeat constructor).
  destruct Hj' as [Hj'|[-> Hj']].
  - destruct (IH _ Hin' Hj') as (IHv & IHj & IHn).
    split; [ | split; [ done | ] ].
    + apply Forall_app. split; [ | done ].
      eapply Forall_impl; [ exact Hv' | by left ].
    + intros Hno. destruct IHn as [IHn1 IHn2]; [ by intros ?; apply Hno; right | ].
      split; [ | done ]. apply Forall_app. by split.
  - destruct (run_expired evs _ jobId Hin' Hj') as [Ev Ej].
    split; [ | split; [ by right | ] ].
    + apply Forall_app. split.
      * eapply Forall_impl; [ exact Hv' | by left ].
      * eapply Forall_impl; [ exact Ev | by right ].
    + intros Hno. destruct Hno. by left.
Qed.

Lemma transition_wf o id t : wf o -> wf (transition o id t).
Proof.
  unfold wf, transition. intros Hwf.
  destruct (jobs o !! id) as [j|] eqn:Hid; [ | done ].
  cbn [mbind option_bind]. destruct (t j) as [j'|]; [ | done ].
  cbn [jobs issued]. rewrite dom_insert. intros k [Hk|Hk]%elem_of_union; [ | by apply Hwf ].
  apply elem_of_singleton in Hk as ->. apply Hwf. by eapply elem_of_dom_2.
Qed.

(** The ids of the stored jobs stay among the issued ones. *)
Lemma handle_wf o ev : wf o -> wf (handle o ev).2.
Proof.
  unfold wf. intros Hwf.
  destruct ev as [inputText providerName strategy now|id|id|id p|id out now|id];
    cbn [handle snd].
  - unfold submit. destruct (_ && _); [ | done ]. cbn [snd jobs issued].
    rewrite dom_insert. by apply union_mono_l.
  - unfold getStatus. by destruct (jobs o !! id).
  - by apply transition_wf.
  - by apply transition_wf.
  - by apply transition_wf.
  - unfold expire. destruct (jobs o !! id) as [j|]; [ | done ].
    destruct (terminal (status j)); [ | done ].
    cbn [jobs issued]. rewrite dom_delete. intros k Hk.
    apply Hwf. by apply elem_of_difference in Hk as [Hk _].
Qed.

Lemma run_wf evs o : wf o -> wf (run o evs).2.
Proof.
  revert o. induction evs as [|ev evs IH]; intros o Hwf; [ done | ].
  cbn [run snd]. by apply IH, handle_wf.
Qed.

Lemma reachable_wf providers evs : wf (run (start providers) evs).2.
Proof. apply run_wf. unfold wf, start. cbn [jobs issued]. by rewrite dom_empty. Qed.

End Orchestrator.

(** A job that is still running shows its polls what execution has made
    of it in between. *)
Lemma running_job_is_seen_to_change :
  let o := JobOrchestrator.mkOrchestrator ["Gemini"]
             {[ example_job := running_job ]} {[ example_job ]} in
  JobOrchestrator.views_of example_job
    (JobOrchestrator.run o [JobOrchestrator.GetStatus example_job;
                            JobOrchestrator.Progress example_job 80;
                            JobOrchestrator.GetStatus example_job]).1
  = [inr (JobOrchestrator.mkView JobOrchestrator.running 50 None None);
     inr (JobOrchestrator.mkView JobOrchestrator.running 80 None None)].
Proof. vm_compute. reflexivity. Qed.

(** C10: for a job whose status is complete or error, every call of
    getStatus returns the same view (the job's status and progress, its
    result when complete, its error when failed), however many calls
    there are and whatever the Orchestrator does between them: other
    submissions, steps of execution of this or of any other job, expiry
    of other jobs.  A call leaves the Orchestrator's state as it is, and
    the job stays as it was.  Only expiry ends this: from then on the id
    is not found, and no other content is ever returned for it. *)
Theorem getStatus_is_idempotent_on_terminal_jobs
    (o : JobOrchestrator.Orchestrator) (jobId : string)
    (j : JobOrchestrator.Job) (evs : list JobOrchestrator.Event) :
  JobOrchestrator.wf o ->
  JobOrchestrator.jobs o !! jobId = Some j ->
  JobOrchestrator.terminal (JobOrchestrator.status j) = true ->
  let view := JobOrchestrator.view_of j in
  let after := JobOrchestrator.run o evs in
  JobOrchestrator.getStatus o jobId = (inr view, o) /\
  JobOrchestrator.view_result view
  = match JobOrchestrator.status j with
    | JobOrchestrator.complete => JobOrchestrator.result j
    | _ => None
    end /\
  JobOrchestrator.view_error view
  = match JobOrchestrator.status j with
    | JobOrchestrator.error => JobOrchestrator.failure j
    | _ => None
    end /\
  Forall (fun r => r = inr view \/ r = inl JobOrchestrator.not_found)
         (JobOrchestrator.views_of jobId after.1) /\
  (~ In (JobOrchestrator.Expire jobId) evs ->
   Forall (fun r => r = inr view) (JobOrchestrator.views_of jobId after.1) /\
   JobOrchestrator.jobs after.2 !! jobId = Some j).
Proof.
  intros Hwf Hj Hterm. cbv zeta.
  assert (jobId ∈ JobOrchestrator.issued o) as Hin
    by (apply Hwf; by eapply elem_of_dom_2).
  split; [ unfold JobOrchestrator.getStatus; by rewrite Hj | ].
  split; [ reflexivity | ]. split; [ reflexivity | ].
  destruct (run_terminal evs o jobId j Hin Hj Hterm) as (Hv & _ & Hn). by split.
Qed.

Lemma getStatus_is_idempotent_on_terminal_jobs_witness :
  Forall (fun r => r = inr (JobOrchestrator.view_of finished_job))
         (JobOrchestrator.views_of example_job
            (JobOrchestrator.run one_job busy_schedule).1) /\
  JobOrchestrator.jobs (JobOrchestrator.run one_job busy_schedule).2 !! example_job
  = Some finished_job.
Proof.
  apply (getStatus_is_idempotent_on_terminal_jobs
           one_job example_job finished_job busy_schedule).
  - unfold JobOrchestrator.wf, one_job. cbn [JobOrchestrator.jobs JobOrchestrator.issued].
    by rewrite dom_singleton_L.
  - vm_compute. reflexivity.
  - reflexivity.
  - simpl. intros H. repeat destruct H as [H|H]; try discriminate H. exact H.
Defined.

(** ** More of the text form *)

Lemma download_names_app (t1 t2 : list Event) :
  download_names (t1 ++ t2) = (download_names t1 ++ download_names t2)%list.
Proof. induction t1 as [|[] t1 IH]; simpl; congruence. Qed.

Lemma form_resets_app (t1 t2 : list Event) :
  form_resets (t1 ++ t2) = (form_resets t1 ++ form_resets t2)%list.
Proof. apply filter_app. Qed.

Lemma callbacks_app (t1 t2 : list Event) :
  callbacks (t1 ++ t2) = (callbacks t1 ++ callbacks t2)%list.
Proof. apply filter_app. Qed.

(** An attempt neither resets the form nor calls back. *)
Lemma poll_attempt_effects env jobId n :
  form_resets (events (poll_attempt env jobId n)) = [] /\
  callbacks (events (poll_attempt env jobId n)) = [].
Proof.
  unfold poll_attempt. unfold_async.
  destruct jobId as [| |jb|jz|id|jf]; simpl; auto.
  destruct (status_reply env n) as [r|e0]; simpl; auto.
  destruct (ok r), (is_pdf (content_type r)), (blob r), (json r) as [[]|];
    simpl; auto.
  all: destruct (status r =? 400)%nat; simpl; auto.
  all: destruct (strict_eq_str _ _); auto.
Qed.

(** The attempt that finds the report. *)
Lemma poll_attempt_report env id n b :
  report_of (status_reply env n) = Some b ->
  poll_attempt env (VStr id) n =
  ([ConsoleLog ("[Poll " ++ pretty n ++ "] Checking status for job " ++
                substring0 8 id ++ "...");
    Request GET (poll_url env id) None;
    ConsoleLog "✓ PDF ready! Downloading...";
    Download (report_name id) b;
    ConsoleLog "✓ Download complete!"],
   Returned true).
Proof.
  unfold report_of, poll_attempt, poll_url, report_name. unfold_async. simpl.
  destruct (status_reply env n) as [r|e0]; [ | done ].
  destruct (ok r); [ | done ]. simpl.
  destruct (is_pdf (content_type r)); [ | done ].
  destruct (blob r) as [b'|]; [ | done ].
  intros [= ->]. reflexivity.
Qed.

(** Without a string for a job id the attempt fails before it asks. *)
Lemma poll_attempt_no_job env jobId n :
  (forall id, jobId <> VStr id) ->
  exists e, poll_attempt env jobId n = ([], Thrown e) /\
            startsWith (message e) "Processing failed" = false.
Proof.
  intros Hno. unfold poll_attempt. unfold_async.
  destruct jobId as [| |jb|jz|id|jf]; simpl.
  5: by destruct (Hno id).
  all: eexists (mkError _); split; reflexivity.
Qed.


Lemma poll_iteration_effects env jobId st :
  form_resets (events (poll_iteration env jobId st)) = [] /\
  callbacks (events (poll_iteration env jobId st)) = [].
Proof.
  rewrite poll_iteration_eq. cbv zeta. unfold events at 1 3. cbn [fst].
  destruct (poll_attempt_effects env jobId (S (pollCount st))) as [Hr Hc].
  change (Delay 1000 :: ?t)%list with ([Delay 1000] ++ t)%list.
  rewrite !form_resets_app, !callbacks_app, Hr, Hc.
  by destruct (outcome _).
Qed.

Lemma while_loop_effects fuel env jobId st :
  form_resets (events (while_loop fuel env jobId st)) = [] /\
  callbacks (events (while_loop fuel env jobId st)) = [].
Proof.
  revert st. induction fuel as [|fuel IH]; intros st.
  - unfold while_loop. destruct (_ && _); auto.
  - rewrite while_loop_step. destruct (_ && _); [ | auto ].
    rewrite events_bind, form_resets_app, callbacks_app.
    destruct (poll_iteration_effects env jobId st) as [-> ->].
    destruct (outcome _) as [st'| |]; simpl; auto.
Qed.

Lemma poll_iteration_report env id st b :
  report_of (status_reply env (S (pollCount st))) = Some b ->
  outcome (poll_iteration env (VStr id) st) = Returned (mkLoop true (S (pollCount st))) /\
  downloads (events (poll_iteration env (VStr id) st)) = [b] /\
  download_names (events (poll_iteration env (VStr id) st)) = [report_name id] /\
  delays (events (poll_iteration env (VStr id) st)) = [1000].
Proof.
  intros H. rewrite poll_iteration_eq. cbv zeta.
  rewrite (poll_attempt_report env id _ b H). repeat split.
Qed.

Lemma poll_iteration_quiet_names env jobId st :
  quiet (status_reply env (S (pollCount st))) = true ->
  download_names (events (poll_iteration env jobId st)) = [] /\
  delays (events (poll_iteration env jobId st)) = [1000].
Proof.
  intros Hq.
  destruct (poll_iteration_quiet env jobId st Hq) as [_ Hdl].
  destruct (poll_iteration_spec env jobId st) as (t & o & E & _ & Hd & _).
  rewrite E in Hdl |- *. unfold events in *. cbn [fst] in *.
  split; [ | simpl; by rewrite Hd ].
  clear -Hdl. simpl in Hdl. simpl.
  induction t as [|[] t IH]; simpl in *; try done; auto.
Qed.

(** Quiet replies up to poll [n], whose reply carries the report: the loop
    downloads it and stops. *)
Lemma while_loop_report fuel env id st n b :
  isComplete st = false ->
  pollCount st < n <= maxPolls ->
  n - pollCount st <= fuel ->
  (forall k, pollCount st < k < n -> quiet (status_reply env k) = true) ->
  report_of (status_reply env n) = Some b ->
  let t := events (while_loop fuel env (VStr id) st) in
  outcome (while_loop fuel env (VStr id) st) = Returned (mkLoop true n) /\
  length (delays t) = n - pollCount st /\
  downloads t = [b] /\
  download_names t = [report_name id] /\
  status_requests t = replicate (n - pollCount st) (Request GET (poll_url env id) None).
Proof.
  revert st. induction fuel as [|fuel IH]; intros [c k]; cbn [isComplete pollCount];
    intros -> Hn Hfuel Hq Hrep; [ lia | ].
  cbv zeta. rewrite while_loop_step. cbn [isComplete pollCount]. simpl negb.
  assert (Hlt : (k <? maxPolls)%nat = true) by (apply Nat.ltb_lt; lia).
  rewrite Hlt. simpl andb. cbv iota.
  rewrite outcome_bind, events_bind.
  rewrite delays_app, downloads_app, download_names_app, status_requests_app, length_app.
  rewrite poll_iteration_request.
  destruct (decide (S k = n)) as [<-|Hne].
  - destruct (poll_iteration_report env id (mkLoop false k) b Hrep) as (Ho & Hdl & Hnm & Hd).
    cbn [pollCount] in Ho. rewrite Ho, Hdl, Hnm, Hd.
    rewrite while_loop_exit by reflexivity.
    replace (S k - k) with 1 by lia. repeat split.
  - assert (Hqk : quiet (status_reply env (S (pollCount (mkLoop false k)))) = true)
      by (apply Hq; cbn [pollCount]; lia).
    destruct (poll_iteration_quiet env (VStr id) (mkLoop false k) Hqk) as [Ho Hdl].
    destruct (poll_iteration_quiet_names env (VStr id) (mkLoop false k) Hqk) as [Hnm Hd].
    cbn [isComplete pollCount] in Ho. rewrite Ho, Hdl, Hnm, Hd.
    destruct (IH (mkLoop false (S k))) as (I1 & I2 & I3 & I4 & I5);
      cbn [isComplete pollCount]; [ done | lia | lia | intros; apply Hq; lia | done | ].
    cbn [isComplete pollCount] in *.
    rewrite I1, I2, I3, I4, I5.
    replace (n - k) with (S (n - S k)) by lia.
    repeat split.
Qed.


Lemma outcome_pair {A} (t : list Event) (o : Outcome A) : outcome (t, o) = o.
Proof. reflexivity. Qed.

Lemma events_pair {A} (t : list Event) (o : Outcome A) : events (t, o) = t.
Proof. reflexivity. Qed.

(** How the loop ends: completed with exactly one download, or not
    completed (or aborted) with none. *)
Lemma while_loop_completion fuel env jobId st :
  isComplete st = false ->
  maxPolls - pollCount st <= fuel ->
  match outcome (while_loop fuel env jobId st) with
  | Returned st' =>
      if isComplete st'
      then exists b, downloads (events (while_loop fuel env jobId st)) = [b]
      else downloads (events (while_loop fuel env jobId st)) = []
  | Thrown _ => downloads (events (while_loop fuel env jobId st)) = []
  | OutOfFuel => False
  end.
Proof.
  revert st. induction fuel as [|fuel IH]; intros st Hc Hfuel.
  - rewrite while_loop_exit; [ simpl; by rewrite Hc | ].
    apply andb_false_iff. right. apply Nat.ltb_ge. lia.
  - rewrite while_loop_step.
    destruct (negb (isComplete st) && (pollCount st <? maxPolls)%nat) eqn:Hg;
      [ | simpl; by rewrite Hc ].
    rewrite outcome_bind, events_bind, downloads_app.
    destruct (poll_iteration_spec env jobId st) as (t & o & -> & Hspec & _).
    change (outcome (Delay 1000 :: t, o)) with o.
    change (events (Delay 1000 :: t, o)) with (Delay 1000 :: t).
    change (downloads (Delay 1000 :: t)) with (downloads t).
    inversion Hspec as [b Hrep Hdl | Hdl | e Hdl]; subst.
    + rewrite while_loop_exit by reflexivity. simpl. rewrite Hdl. eauto.
    + rewrite Hdl, Hc. simpl app.
      apply (IH (mkLoop false (S (pollCount st)))); cbn [isComplete pollCount]; [ done | lia ].
    + by rewrite Hdl.
Qed.

Lemma poll_iteration_no_job env jobId st :
  (forall id, jobId <> VStr id) ->
  exists e, poll_iteration env jobId st =
            ([Delay 1000; ConsoleError ("Poll error: " ++ message e)],
             Returned (mkLoop (isComplete st) (S (pollCount st)))).
Proof.
  intros Hno. rewrite poll_iteration_eq. cbv zeta.
  destruct (poll_attempt_no_job env jobId (S (pollCount st)) Hno) as (e & -> & Hsw).
  exists e. unfold outcome, events. cbn [fst snd]. rewrite Hsw. reflexivity.
Qed.

(** Without a string for a job id the loop waits [maxPolls] times and
    asks nothing. *)
Lemma while_loop_no_job fuel env jobId st :
  (forall id, jobId <> VStr id) ->
  isComplete st = false ->
  pollCount st <= maxPolls ->
  maxPolls - pollCount st <= fuel ->
  outcome (while_loop fuel env jobId st) = Returned (mkLoop false maxPolls) /\
  length (delays (events (while_loop fuel env jobId st))) = maxPolls - pollCount st /\
  status_requests (events (while_loop fuel env jobId st)) = [] /\
  downloads (events (while_loop fuel env jobId st)) = [].
Proof.
  intros Hno. revert st.
  induction fuel as [|fuel IH]; intros [c k]; cbn [isComplete pollCount];
    intros -> Hle Hfuel.
  - assert (k = maxPolls) as -> by lia.
    rewrite while_loop_exit by (cbn [isComplete pollCount]; by rewrite Nat.ltb_irrefl).
    rewrite Nat.sub_diag. simpl. auto.
  - rewrite while_loop_step. cbn [isComplete pollCount]. simpl negb.
    destruct (k <? maxPolls)%nat eqn:Hlt; simpl andb; cbv iota.
    + apply Nat.ltb_lt in Hlt.
      destruct (poll_iteration_no_job env jobId (mkLoop false k) Hno) as (e & ->).
      cbn [isComplete pollCount].
      rewrite outcome_bind, events_bind, !outcome_pair, !events_pair.
      destruct (IH (mkLoop false (S k))) as (I1 & I2 & I3 & I4);
        cbn [isComplete pollCount]; [ done | lia | lia | ].
      cbn [isComplete pollCount] in *.
      rewrite delays_app, status_requests_app, downloads_app, length_app, I1, I2, I3, I4.
      replace (maxPolls - k) with (S (maxPolls - S k)) by lia.
      repeat split.
    + apply Nat.ltb_ge in Hlt. assert (k = maxPolls) as -> by lia.
      rewrite Nat.sub_diag. simpl. auto.
Qed.


(** The events of [onSubmit] once a job id has been read, by the way the
    loop ends. *)
Lemma onSubmit_by_loop props env text jobId :
  job_of_upload (upload_reply env) = Some jobId ->
  events (onSubmit props env text) =
  (upload_events props env text ++
   [ConsoleLog ("✓ Job started: " ++ to_string jobId)] ++
   events (while_loop maxPolls env jobId (mkLoop false 0)) ++
   match outcome (while_loop maxPolls env jobId (mkLoop false 0)) with
   | Returned st =>
       if isComplete st then success_events props
       else failure_events (mkError timeout_message)
   | Thrown e => failure_events e
   | OutOfFuel => []
   end)%list.
Proof.
  intros Hjob. rewrite (onSubmit_events_started props env text jobId Hjob).
  rewrite poll_for_report_eq. cbv zeta.
  destruct (outcome (while_loop maxPolls env jobId (mkLoop false 0))) as [st|e|];
    [ destruct (isComplete st) | | ];
    rewrite ?outcome_pair, ?events_pair, <- ?app_assoc, ?app_nil_r; reflexivity.
Qed.

Ltac project_trace :=
  rewrite ?status_requests_app, ?delays_app, ?downloads_app, ?download_names_app,
    ?alerts_app, ?form_resets_app, ?callbacks_app, ?posted_bodies_app.

(** X1: when the upload is answered with a job id and the report arrives
    at poll [n] (at most the 600th) after quiet replies, the client has
    waited and asked [n] times, always at the job's status address, hands
    over exactly the report's bytes under the name made of the first eight
    characters of the job id, announces success once, resets the form and
    calls [onSuccess] if it was given. *)
Theorem report_is_downloaded_and_announced props env text id n b :
  job_of_upload (upload_reply env) = Some (VStr id) ->
  1 <= n <= 600 ->
  (forall k, 1 <= k < n -> quiet (status_reply env k) = true) ->
  report_of (status_reply env n) = Some b ->
  let t := events (onSubmit props env text) in
  status_requests t = replicate n (Request GET (poll_url env id) None) /\
  length (delays t) = n /\
  downloads t = [b] /\
  download_names t = [report_name id] /\
  alerts t = [success_message] /\
  form_resets t = [FormReset] /\
  callbacks t = (if onSuccess props then [OnSuccess] else []).
Proof.
  intros Hjob Hn Hquiet Hrep. cbv zeta.
  rewrite (onSubmit_by_loop props env text _ Hjob).
  assert (Hq : forall k, pollCount (mkLoop false 0) < k < n ->
                         quiet (status_reply env k) = true).
  { intros k Hk. apply Hquiet. cbn [pollCount] in Hk. lia. }
  destruct (while_loop_report maxPolls env id (mkLoop false 0) n b eq_refl
              ltac:(cbn; unfold maxPolls; lia) ltac:(cbn; unfold maxPolls; lia) Hq Hrep)
    as (Ho & Hd & Hdl & Hnm & Hs).
  cbn [pollCount] in Hd, Hs. rewrite Nat.sub_0_r in Hd, Hs.
  destruct (while_loop_trace maxPolls env (VStr id) (mkLoop false 0)) as (_ & _ & _ & Ha & _).
  destruct (while_loop_effects maxPolls env (VStr id) (mkLoop false 0)) as (Hr & Hc).
  cbv zeta in Ha. rewrite Ho. cbn [isComplete].
  project_trace. rewrite Hs, Hdl, Hnm, Ha, Hr, Hc.
  rewrite !length_app, Hd.
  unfold upload_events, success_events, success_message.
  destruct (onSuccess props); simpl; rewrite ?app_nil_r; repeat split; lia.
Qed.


Lemma report_is_downloaded_and_announced_witness :
  let t := events (onSubmit example_props done_at_second example_text) in
  status_requests t = replicate 2 (Request GET (poll_url done_at_second example_job) None) /\
  length (delays t) = 2 /\
  downloads t = [report_bytes] /\
  download_names t = [report_name example_job] /\
  alerts t = [success_message] /\
  form_resets t = [FormReset] /\
  callbacks t = (if onSuccess example_props then [OnSuccess] else []).
Proof.
  apply (report_is_downloaded_and_announced example_props done_at_second example_text
           example_job 2 report_bytes).
  - reflexivity.
  - lia.
  - intros k Hk. assert (k = 1) as -> by lia. reflexivity.
  - reflexivity.
Defined.

(** X2: whatever the server does, a submission of the text form ends in
    one of two ways: nothing is downloaded, the form is neither reset nor
    is [onSuccess] called, and one error alert is shown; or exactly one
    file is downloaded, the form is reset, [onSuccess] is called if given,
    and the success alert is shown. *)
Theorem success_is_announced_exactly_when_a_report_was_downloaded props env text :
  let t := events (onSubmit props env text) in
  (downloads t = [] /\ form_resets t = [] /\ callbacks t = [] /\
   exists e, alerts t = ["❌ Error: " ++ message e]) \/
  (exists b, downloads t = [b] /\ form_resets t = [FormReset] /\
             callbacks t = (if onSuccess props then [OnSuccess] else []) /\
             alerts t = [success_message]).
Proof.
  cbv zeta.
  destruct (job_of_upload (upload_reply env)) as [jobId|] eqn:Hjob.
  - rewrite (onSubmit_by_loop props env text _ Hjob).
    pose proof (while_loop_completion maxPolls env jobId (mkLoop false 0) eq_refl
                  ltac:(cbn; unfold maxPolls; lia)) as Hend.
    destruct (while_loop_trace maxPolls env jobId (mkLoop false 0)) as (_ & _ & _ & Ha & _).
    destruct (while_loop_effects maxPolls env jobId (mkLoop false 0)) as (Hr & Hc).
    cbv zeta in Ha. project_trace. rewrite Ha, Hr, Hc.
    unfold upload_events, success_events, failure_events, success_message.
    destruct (outcome (while_loop maxPolls env jobId (mkLoop false 0))) as [st|e|];
      [ destruct (isComplete st) | | done ].
    + destruct Hend as [b ->]. right. exists b.
      destruct (onSuccess props); simpl; repeat split.
    + rewrite Hend. left. simpl. repeat split. by eexists (mkError _).
    + rewrite Hend. left. simpl. repeat split. by exists e.
  - destruct (onSubmit_not_started props env text Hjob) as (e & ->).
    left. rewrite events_pair. project_trace.
    unfold upload_events, failure_events. simpl. repeat split. by exists e.
Qed.

(** X3: an upload that fails is reported by the message of the failure
    (the rejection, the server's [error] or else "Upload failed: " with
    the status text, the parse error), and whenever no job id could be
    read from the reply there is no poll, no wait, no download, no reset
    and no callback. *)
Theorem failed_submission_is_reported_without_polling props env text :
  let t := events (onSubmit props env text) in
  (forall e, upload_reply env = Rejected e ->
     t = (upload_events props env text ++ failure_events e)%list) /\
  (forall r fields, upload_reply env = Fulfilled r -> ok r = false ->
     json r = Fulfilled (VObj fields) ->
     let err := default VUndefined (assoc "error" fields) in
     t = (upload_events props env text ++
          failure_events (mkError (if truthy err then to_string err
                                   else "Upload failed: " ++ statusText r)))%list) /\
  (forall r e, upload_reply env = Fulfilled r -> json r = Rejected e ->
     t = (upload_events props env text ++ failure_events e)%list) /\
  (job_of_upload (upload_reply env) = None ->
     status_requests t = [] /\ delays t = [] /\ downloads t = [] /\
     form_resets t = [] /\ callbacks t = []).
Proof.
  cbv zeta. split; [ | split; [ | split ] ].
  - intros e Hr. unfold onSubmit, upload_events, failure_events. unfold_async.
    rewrite Hr. reflexivity.
  - intros r fields Hr Hok Hj.
    unfold onSubmit, upload_events, failure_events. unfold_async.
    rewrite Hr. cbv beta iota. rewrite Hok, Hj. reflexivity.
  - intros r e Hr Hj.
    unfold onSubmit, upload_events, failure_events. unfold_async.
    rewrite Hr. cbv beta iota. rewrite Hj. destruct (ok r); reflexivity.
  - intros Hjob. destruct (onSubmit_not_started props env text Hjob) as (e & ->).
    repeat split.
Qed.


Lemma failed_submission_is_reported_without_polling_witness :
  events (onSubmit example_props upload_refused example_text) =
  (upload_events example_props upload_refused example_text ++
   failure_events (mkError "Invalid LLM type"))%list.
Proof.
  apply (proj1 (proj2 (failed_submission_is_reported_without_polling
                         example_props upload_refused example_text))
           (refusal_response "Invalid LLM type") [("error", VStr "Invalid LLM type")]);
    reflexivity.
Defined.

(** X4: when the upload is accepted but its reply holds no string under
    [job_id], the status address cannot be built: the client waits 600
    times without asking the server once and ends with the timeout
    alert. *)
Theorem missing_job_id_is_waited_out props env text jobId :
  job_of_upload (upload_reply env) = Some jobId ->
  (forall id, jobId <> VStr id) ->
  let t := events (onSubmit props env text) in
  status_requests t = [] /\
  length (delays t) = 600 /\
  downloads t = [] /\
  alerts t = ["❌ Error: " ++ timeout_message].
Proof.
  intros Hjob Hno. cbv zeta.
  rewrite (onSubmit_by_loop props env text _ Hjob).
  destruct (while_loop_no_job maxPolls env jobId (mkLoop false 0) Hno eq_refl
              ltac:(cbn; unfold maxPolls; lia) ltac:(cbn; unfold maxPolls; lia))
    as (Ho & Hd & Hs & Hdl).
  cbn [pollCount] in Hd. rewrite Nat.sub_0_r in Hd.
  destruct (while_loop_trace maxPolls env jobId (mkLoop false 0)) as (_ & _ & _ & Ha & _).
  cbv zeta in Ha. rewrite Ho. cbn [isComplete].
  project_trace. rewrite Hs, Hdl, Ha, !length_app, Hd.
  unfold upload_events, failure_events. simpl. repeat split.
Qed.

Lemma missing_job_id_is_waited_out_witness :
  let t := events (onSubmit example_props job_under_other_key example_text) in
  status_requests t = [] /\
  length (delays t) = 600 /\
  downloads t = [] /\
  alerts t = ["❌ Error: " ++ timeout_message].
Proof.
  apply (missing_job_id_is_waited_out example_props job_under_other_key example_text
           VUndefined).
  - reflexivity.
  - intros id. discriminate.
Defined.

(** ** Content types *)

Lemma append_cons (a : Ascii.ascii) (p q : string) : String a p ++ q = String a (p ++ q).
Proof. reflexivity. Qed.

Lemma append_empty (q : string) : "" ++ q = q.
Proof. reflexivity. Qed.

Lemma prefix_spec (p s : string) :
  String.prefix p s = true <-> exists post, s = p ++ post.
Proof.
  revert s. induction p as [|a p IH]; intros s.
  - split; [ intros _; by exists s | intros _; by destruct s ].
  - destruct s as [|b s]; simpl; [ split; [ done | intros (post & [=]) ] | ].
    destruct (Ascii.ascii_dec a b) as [<-|Hne].
    + rewrite IH. split; intros (post & H); exists post.
      * by rewrite append_cons, H.
      * rewrite append_cons in H. congruence.
    + split; [ done | intros (post & H) ].
      rewrite append_cons in H. congruence.
Qed.

Lemma includes_spec (s sub : string) :
  includes s sub = true <-> exists pre post, s = pre ++ sub ++ post.
Proof.
  induction s as [|a s IH].
  - change (includes "" sub) with (String.prefix sub "" || false).
    rewrite orb_false_r, prefix_spec. split.
    + intros (post & H). by exists "", post.
    + intros (pre & post & H). destruct pre; [ by exists post | discriminate ].
  - change (includes (String a s) sub)
      with (String.prefix sub (String a s) || includes s sub).
    rewrite orb_true_iff, prefix_spec, IH. split.
    + intros [(post & H)|(pre & post & H)].
      * by exists "", post.
      * exists (String a pre), post. rewrite append_cons. congruence.
    + intros (pre & post & H). destruct pre as [|b pre].
      * left. by exists post.
      * right. rewrite append_cons in H. injection H as _ H. by exists pre, post.
Qed.

(** X5: a reply counts as the report exactly when it declares a content
    type in which "application/pdf" occurs, at any position. *)
Theorem pdf_is_recognised_anywhere_in_the_content_type (contentType : option string) :
  is_pdf contentType = true <->
  exists pre post, contentType = Some (pre ++ "application/pdf" ++ post).
Proof.
  unfold is_pdf. destruct contentType as [ct|].
  - rewrite andb_true_iff, includes_spec. split.
    + intros (_ & pre & post & ->). eauto.
    + intros (pre & post & [= ->]). split; [ | eauto ].
      destruct pre; reflexivity.
  - split; [ done | intros (pre & post & [=]) ].
Qed.

(** ** ContactForm (the file form) *)

(** X6: whatever the server does, the file form's handler returns, shows
    exactly one alert, and resets the form and calls [onSuccess] only
    together with a download. *)
Theorem file_form_reports_every_outcome_once props env file :
  let t := events (ContactForm.onSubmit props env file) in
  outcome (ContactForm.onSubmit props env file) = Returned tt /\
  length (alerts t) = 1 /\
  ((downloads t = [] /\ form_resets t = [] /\ callbacks t = []) \/
   (exists b, downloads t = [b] /\ alerts t = [file_success_message] /\
              form_resets t = [FormReset] /\
              callbacks t = (if ContactForm.onSuccess props then [OnSuccess] else []))).
Proof.
  cbv zeta. unfold ContactForm.onSubmit. unfold_async.
  destruct file as [f|]; simpl; [ | repeat split; auto ].
  destruct (ContactForm.upload_reply env) as [r|e]; simpl.
  - destruct (ok r) eqn:Hok; simpl.
    + destruct (blob r) as [b|e] eqn:Hb; simpl.
      * destruct (ContactForm.onSuccess props); simpl; repeat split; try done;
          right; exists b; repeat split.
      * repeat split; try done; left; repeat split.
    + destruct (json r) as [[]|]; simpl; repeat split; try done; left; repeat split.
  - repeat split; try done; left; repeat split.
Qed.

(** ** The dialogs *)

Lemma DataUploadTxt_invariant (actions : list DataUploadTxt.Action) :
  In (DataUploadTxt.selectedLLM (DataUploadTxt.run actions)) DataUploadTxt.MODEL_ITEMS /\
  In (DataUploadTxt.selectedPrompt (DataUploadTxt.run actions))
     (map DataUploadTxt.value DataUploadTxt.PROMPT_OPTIONS).
Proof.
  unfold DataUploadTxt.run.
  assert (H0 : In (DataUploadTxt.selectedLLM DataUploadTxt.initial)
                  DataUploadTxt.MODEL_ITEMS /\
               In (DataUploadTxt.selectedPrompt DataUploadTxt.initial)
                  (map DataUploadTxt.value DataUploadTxt.PROMPT_OPTIONS))
    by (simpl; auto).
  revert H0. generalize DataUploadTxt.initial.
  induction actions as [|a actions IH]; intros s Hs; [ exact Hs | ].
  simpl foldl. apply IH. destruct Hs as [Hm Hp].
  destruct a as [b|i|i|]; cbn [DataUploadTxt.step].
  - by split.
  - destruct (DataUploadTxt.MODEL_ITEMS !! i) as [m|] eqn:Hi; [ | by split ].
    split; [ | exact Hp ]. cbn [DataUploadTxt.selectedLLM].
    apply list_elem_of_In. by eapply list_elem_of_lookup_2.
  - destruct (DataUploadTxt.PROMPT_OPTIONS !! i) as [o|] eqn:Hi; [ | by split ].
    split; [ exact Hm | ]. cbn [DataUploadTxt.selectedPrompt].
    apply in_map, list_elem_of_In. by eapply list_elem_of_lookup_2.
  - by split.
Qed.

(** X7: after any sequence of clicks in the text dialog the trigger shows
    the label of the selected prompt, the selected model is one of the
    listed ones, and a submission posts that model with the text and
    nothing else. *)
Theorem dialog_always_shows_a_label_and_sends_a_listed_model
    (actions : list DataUploadTxt.Action) env text :
  let s := DataUploadTxt.run actions in
  (exists o, In o DataUploadTxt.PROMPT_OPTIONS /\
             DataUploadTxt.value o = DataUploadTxt.selectedPrompt s /\
             DataUploadTxt.trigger_label s = Some (DataUploadTxt.label o)) /\
  In (DataUploadTxt.selectedLLM s) DataUploadTxt.MODEL_ITEMS /\
  Forall (fun body => body = Some [("llm", FText (DataUploadTxt.selectedLLM s));
                                   ("text", FText text)])
         (posted_bodies (RHF.events_of (DataUploadTxt.submit s env text))).
Proof.
  cbv zeta. destruct (DataUploadTxt_invariant actions) as [Hm Hp].
  split; [ | split; [ exact Hm | ] ].
  - unfold DataUploadTxt.trigger_label.
    destruct (DataUploadTxt.run actions) as [o l p]. cbn [DataUploadTxt.selectedPrompt] in *.
    simpl in Hp. destruct Hp as [<-|[<-|[<-|[<-|[<-|[<-|[]]]]]]];
      eexists; (split; [ | split; [ | reflexivity ] ]); simpl; auto 10.
  - unfold DataUploadTxt.submit, submit, RHF.handleSubmit.
    destruct (RHF.validateField text_rules text); [ constructor | ].
    cbn [RHF.events_of].
    destruct (onSubmit_trace (DataUploadTxt.form_props (DataUploadTxt.run actions)) env text)
      as (_ & Hposted & _).
    cbv zeta in Hposted. rewrite Hposted. by repeat constructor.
Qed.

(** ** Regular expressions *)

Section RegexFacts.

Import Regex.

Lemma append_eq_empty (s1 s2 : string) : s1 ++ s2 = "" -> s1 = "" /\ s2 = "".
Proof. destruct s1; [ by rewrite append_empty | rewrite append_cons; discriminate ]. Qed.

Lemma nullable_spec r : nullable r = true <-> matches r "".
Proof.
  split.
  - induction r; simpl; try discriminate.
    + intros _. constructor.
    + intros [H1 H2]%andb_true_iff. rewrite <- (append_empty ""). constructor; auto.
    + intros [H|H]%orb_true_iff; [ apply m_alt_l | apply m_alt_r ]; auto.
    + intros _. constructor.
  - remember "" as s eqn:E. intros H. induction H; simpl; subst; try done.
    + apply append_eq_empty in E as [-> ->]. rewrite IHmatches1, IHmatches2; done.
    + rewrite IHmatches; done.
    + rewrite IHmatches; [ apply orb_true_r | done ].
Qed.

Lemma deriv_sound a r s : matches (deriv a r) s -> matches r (String a s).
Proof.
  revert s. induction r; intros s; simpl.
  - inversion 1.
  - inversion 1.
  - destruct (p a) eqn:Hp; inversion 1; subst. by constructor.
  - destruct (nullable r1) eqn:Hn.
    + inversion 1 as [ | | | ? ? ? H1 | ? ? ? H2 | | ]; subst.
      * inversion H1; subst. rewrite <- append_cons. constructor; auto.
      * rewrite <- (append_empty (String a s)). constructor; [ | auto ].
        by apply nullable_spec.
    + inversion 1; subst. rewrite <- append_cons. constructor; auto.
  - inversion 1; subst; [ apply m_alt_l | apply m_alt_r ]; auto.
  - inversion 1; subst. rewrite <- append_cons. apply m_star_cons; auto.
Qed.

Lemma deriv_complete a r s : matches r (String a s) -> matches (deriv a r) s.
Proof.
  remember (String a s) as s' eqn:E. intros H. revert s E.
  induction H; intros s0 E; simpl.
  - discriminate.
  - injection E as -> <-. rewrite H. constructor.
  - destruct s1 as [|b s1].
    + rewrite append_empty in E. subst s2.
      apply nullable_spec in H. rewrite H. apply m_alt_r. by apply IHmatches2.
    + rewrite append_cons in E. injection E as -> <-.
      destruct (nullable r1); [ apply m_alt_l | ]; constructor; auto.
  - apply m_alt_l. auto.
  - apply m_alt_r. auto.
  - discriminate.
  - destruct s1 as [|b s1].
    + rewrite append_empty in E. by apply IHmatches2.
    + rewrite append_cons in E. injection E as -> <-. constructor; auto.
Qed.

Lemma test_spec r s : test r s = true <-> matches r s.
Proof.
  revert r. induction s as [|a s IH]; intros r; simpl.
  - apply nullable_spec.
  - rewrite IH. split; [ apply deriv_sound | apply deriv_complete ].
Qed.


Lemma matches_chr p s : matches (Chr p) s <-> exists a, s = String a "" /\ p a = true.
Proof.
  split; [ inversion 1; eauto | intros (a & -> & H); by constructor ].
Qed.

Lemma matches_star_chr p s : matches (Star (Chr p)) s <-> all_chars p s = true.
Proof.
  split.
  - remember (Star (Chr p)) as r eqn:E. intros H.
    induction H; try discriminate; [ reflexivity | ].
    injection E as ->. inversion H; subst. rewrite append_cons, append_empty. simpl.
    rewrite IHmatches2 by done. by rewrite andb_true_r.
  - induction s as [|a s IH]; simpl; [ intros _; constructor | ].
    intros [Ha Hs]%andb_true_iff.
    change (String a s) with (String a "" ++ s). constructor; [ by constructor | auto ].
Qed.

Lemma matches_cat r1 r2 s :
  matches (Cat r1 r2) s <-> exists s1 s2, s = s1 ++ s2 /\ matches r1 s1 /\ matches r2 s2.
Proof.
  split; [ inversion 1; eauto | intros (s1 & s2 & -> & H1 & H2); by constructor ].
Qed.

Lemma matches_plus_chr p s :
  matches (plus (Chr p)) s <-> s <> "" /\ all_chars p s = true.
Proof.
  unfold plus. rewrite matches_cat. split.
  - intros (s1 & s2 & -> & (a & -> & Ha)%matches_chr & H2%matches_star_chr).
    rewrite append_cons, append_empty. simpl. rewrite Ha, H2. done.
  - destruct s as [|a s]; [ intros [H _]; by destruct H | ].
    simpl. intros [_ [Ha Hs]%andb_true_iff].
    exists (String a ""), s. split; [ done | ].
    rewrite matches_chr, matches_star_chr. eauto.
Qed.

Lemma matches_at_least2_chr p s :
  matches (at_least2 (Chr p)) s <-> 2 <= String.length s /\ all_chars p s = true.
Proof.
  unfold at_least2. rewrite matches_cat. split.
  - intros (s1 & s2 & -> & (a & -> & Ha)%matches_chr & H2).
    change (matches (plus (Chr p)) s2) in H2. apply matches_plus_chr in H2 as [Hne H2].
    rewrite append_cons, append_empty. simpl. rewrite Ha, H2.
    destruct s2; [ done | simpl; split; [ lia | done ] ].
  - destruct s as [|a [|b s]]; simpl; [ lia | lia | ].
    intros [_ [Ha Hs]%andb_true_iff].
    exists (String a ""), (String b s). split; [ done | ].
    rewrite matches_chr. split; [ eauto | ].
    change (matches (plus (Chr p)) (String b s)). by apply matches_plus_chr.
Qed.

Lemma email_re_spec (s : string) :
  test MessageForm.email_re s = true <->
  exists loc dom tld,
    s = loc ++ "@" ++ dom ++ "." ++ tld /\
    loc <> "" /\ all_chars MessageForm.local_char loc = true /\
    dom <> "" /\ all_chars MessageForm.domain_char dom = true /\
    2 <= String.length tld /\ all_chars MessageForm.letter tld = true.
Proof.
  rewrite test_spec. unfold MessageForm.email_re. split.
  - intros (loc & s1 & -> & [Hl1 Hl2]%matches_plus_chr &
            (a & s2 & -> & (? & -> & Ha)%matches_chr &
             (dom & s3 & -> & [Hd1 Hd2]%matches_plus_chr &
              (b & tld & -> & (? & -> & Hb)%matches_chr &
               [Ht1 Ht2]%matches_at_least2_chr)%matches_cat)%matches_cat)%matches_cat)%matches_cat.
    apply Ascii.eqb_eq in Ha, Hb. subst.
    exists loc, dom, tld. repeat split; auto.
  - intros (loc & dom & tld & -> & Hl1 & Hl2 & Hd1 & Hd2 & Ht1 & Ht2).
    apply matches_cat. exists loc, ("@" ++ dom ++ "." ++ tld).
    split; [ done | ]. split; [ by apply matches_plus_chr | ].
    apply matches_cat. exists "@", (dom ++ "." ++ tld).
    split; [ done | ]. split; [ by constructor | ].
    apply matches_cat. exists dom, ("." ++ tld).
    split; [ done | ]. split; [ by apply matches_plus_chr | ].
    apply matches_cat. exists ".", tld.
    split; [ done | ]. split; [ by constructor | by apply matches_at_least2_chr ].
Qed.


End RegexFacts.

(** ** ContactForm (the message form) *)

(** X8: the e-mail field passes its rules exactly for a text made of a
    local part, an at sign, a domain part, a dot and at least two letters,
    the local part not empty and of letters, digits and [._%+-], the domain
    part not empty and of letters, digits, dots and hyphens. *)
Theorem accepted_email_shape (value : string) :
  MessageForm.validate_email value = None <->
  exists loc dom tld,
    value = loc ++ "@" ++ dom ++ "." ++ tld /\
    loc <> "" /\ all_chars MessageForm.local_char loc = true /\
    dom <> "" /\ all_chars MessageForm.domain_char dom = true /\
    2 <= String.length tld /\ all_chars MessageForm.letter tld = true.
Proof.
  rewrite <- email_re_spec. unfold MessageForm.validate_email, RHF.validateField.
  cbn [RHF.required RHF.minLength].
  destruct (String.eqb_spec value "") as [->|Hne]; [ by split | ].
  cbn [negb andb]. by destruct (Regex.test MessageForm.email_re value).
Qed.

Lemma validateField_min (m1 m2 : string) (n : nat) (value : string) :
  0 < n ->
  RHF.validateField (RHF.mkRules (Some m1) (Some (n, m2))) value = None
  <-> n <= js_length value.
Proof.
  intros Hn. unfold RHF.validateField. cbn [RHF.required RHF.minLength].
  destruct (String.eqb_spec value "") as [->|Hne]; [ simpl; split; [ done | lia ] | ].
  destruct (Nat.ltb_spec (js_length value) n); split; (done || lia).
Qed.

(** X9: [form.handleSubmit(onSubmit)] of the message form writes a
    document exactly when the name has two characters, the e-mail passes
    its rules and the message has ten characters, characters counted as
    [value.length] counts them (in UTF-16 code units); the document holds
    the three values as entered; one alert is shown, and the form is reset
    and [onSuccess] called only when the document was written. *)
Theorem message_form_stores_only_valid_messages
    (onSuccess : bool) (env : MessageForm.Env) (values : MessageForm.Values) :
  let saved := match MessageForm.added env with Fulfilled _ => true | Rejected _ => false end in
  match MessageForm.submit onSuccess env values with
  | inr calls =>
      2 <= js_length (MessageForm.name values) /\
      MessageForm.validate_email (MessageForm.email values) = None /\
      10 <= js_length (MessageForm.message values) /\
      Calls.added_docs calls
      = [("submissions",
          [("name", VStr (MessageForm.name values));
           ("email", VStr (MessageForm.email values));
           ("message", VStr (MessageForm.message values));
           ("timestamp", VNum (Z.of_N (MessageForm.now env)))])] /\
      length (alerts (Calls.ui_events calls)) = 1 /\
      form_resets (Calls.ui_events calls) = (if saved then [FormReset] else []) /\
      callbacks (Calls.ui_events calls) = (if saved && onSuccess then [OnSuccess] else [])
  | inl errs =>
      errs <> [] /\
      (js_length (MessageForm.name values) < 2 \/
       MessageForm.validate_email (MessageForm.email values) <> None \/
       js_length (MessageForm.message values) < 10)
  end.
Proof.
  cbv zeta. unfold MessageForm.submit, MessageForm.errors.
  pose proof (validateField_min "Name is required" "Name must be at least 2 characters"
                2 (MessageForm.name values) ltac:(lia)) as Hname.
  pose proof (validateField_min "Message is required"
                "Message must be at least 10 characters"
                10 (MessageForm.message values) ltac:(lia)) as Hmessage.
  fold MessageForm.name_rules in Hname. fold MessageForm.message_rules in Hmessage.
  destruct (RHF.validateField MessageForm.name_rules (MessageForm.name values)) as [m1|].
  { split; [ done | left ]. apply Nat.nle_gt. intros H. by apply Hname in H. }
  destruct (MessageForm.validate_email (MessageForm.email values)) as [m2|].
  { split; [ done | right; left; done ]. }
  destruct (RHF.validateField MessageForm.message_rules (MessageForm.message values))
    as [m3|].
  { split; [ done | right; right ]. apply Nat.nle_gt. intros H. by apply Hmessage in H. }
  cbn [app]. split; [ by apply Hname | ]. split; [ done | ].
  split; [ by apply Hmessage | ].
  unfold MessageForm.onSubmit.
  by destruct (MessageForm.added env) as [|[msg]], onSuccess.
Qed.

(** ** Splitting and joining *)

Lemma append_assoc (p q r : string) : (p ++ q) ++ r = p ++ q ++ r.
Proof.
  induction p as [|a p IH]; [ reflexivity | ].
  by rewrite !append_cons, IH.
Qed.

Lemma append_empty_r (p : string) : p ++ "" = p.
Proof.
  induction p as [|a p IH]; [ reflexivity | ].
  by rewrite append_cons, IH.
Qed.

Lemma split_on_not_nil c s : split_on c s <> [].
Proof.
  destruct s as [|a s]; simpl; [ done | ].
  destruct (Ascii.eqb a c); [ done | ]. by destruct (split_on c s).
Qed.

Lemma join_cons sep p q rest :
  join sep (p :: q :: rest) = p ++ sep ++ join sep (q :: rest).
Proof. reflexivity. Qed.

Lemma join_split c s : join (String c "") (split_on c s) = s.
Proof.
  induction s as [|a s IH]; [ reflexivity | ].
  pose proof (split_on_not_nil c s) as Hne. simpl split_on.
  destruct (Ascii.eqb a c) eqn:E.
  - apply Ascii.eqb_eq in E as ->.
    destruct (split_on c s) as [|q rest]; [ done | ].
    by rewrite join_cons, IH.
  - destruct (split_on c s) as [|q [|q' rest]]; [ done | | ].
    + simpl in *. by rewrite IH.
    + rewrite join_cons in *. by rewrite append_cons, IH.
Qed.

Lemma split_on_free c s : count_char c s = 0 -> split_on c s = [s].
Proof.
  induction s as [|a s IH]; simpl; [ done | ].
  destruct (Ascii.eqb a c); [ done | ].
  intros H. by rewrite IH.
Qed.

Lemma split_on_app c h p :
  count_char c h = 0 -> split_on c (h ++ String c p) = h :: split_on c p.
Proof.
  induction h as [|a h IH].
  - intros _. rewrite append_empty. simpl. by rewrite Ascii.eqb_refl.
  - rewrite append_cons. simpl. destruct (Ascii.eqb a c); [ done | ].
    intros H. by rewrite IH.
Qed.

Lemma split_on_pieces c s : Forall (fun p => count_char c p = 0) (split_on c s).
Proof.
  induction s as [|a s IH]; simpl; [ by repeat constructor | ].
  destruct (Ascii.eqb a c) eqn:E; [ by constructor | ].
  destruct (split_on c s) as [|q rest]; [ constructor; [ simpl; by rewrite E | done ] | ].
  inversion IH; subst. constructor; [ simpl; by rewrite E | done ].
Qed.

Lemma split_on_length c s : length (split_on c s) = S (count_char c s).
Proof.
  induction s as [|a s IH]; simpl; [ done | ].
  destruct (Ascii.eqb a c); simpl; [ by rewrite IH | ].
  destruct (split_on c s); simpl in *; done.
Qed.

Lemma split_join c pieces :
  pieces <> [] -> Forall (fun p => count_char c p = 0) pieces ->
  split_on c (join (String c "") pieces) = pieces.
Proof.
  induction pieces as [|p [|q rest] IH]; [ done | | ].
  - intros _ H. inversion H; subst. by apply split_on_free.
  - intros _ H. inversion H; subst.
    rewrite join_cons, append_cons, append_empty, split_on_app, IH; done.
Qed.

Lemma join_take sep n pieces :
  exists rest, join sep pieces = join sep (take n pieces) ++ rest.
Proof.
  revert n. induction pieces as [|p [|q rest] IH]; intros n.
  - exists "". by destruct n.
  - destruct n as [|n]; [ by exists p | exists "" ].
    destruct n; simpl; by rewrite append_empty_r.
  - destruct n as [|[|n]].
    + by exists (join sep (p :: q :: rest)).
    + exists (sep ++ join sep (q :: rest)). reflexivity.
    + destruct (IH (S n)) as [post Hpost]. exists post.
      change (take (S (S n)) (p :: q :: rest)) with (p :: q :: take n rest).
      change (take (S n) (q :: rest)) with (q :: take n rest) in Hpost.
      by rewrite !join_cons, Hpost, !append_assoc.
Qed.

(** ** ContactForm (the form that stores a file in Firestore) *)

(** X10: for a data URL with one comma, the document written to
    [submissions] holds the text after the comma as [fileData], with the
    file's name, type and size. *)
Theorem stored_file_is_the_payload_of_the_data_url
    (onSuccess : bool) (env : FileStoreForm.Env) (u : FileStoreForm.Upload)
    (header payload : string) :
  FileStoreForm.read env = Some (header ++ "," ++ payload) ->
  count_char (char_of ",") header = 0 ->
  count_char (char_of ",") payload = 0 ->
  Calls.added_docs (FileStoreForm.onSubmit onSuccess env (Some u))
  = [("submissions",
      [("fileName", VStr (name (FileStoreForm.file u)));
       ("fileType", VStr (FileStoreForm.type u));
       ("fileSize", VNum (Z.of_nat (length (content (FileStoreForm.file u)))));
       ("fileData", VStr payload);
       ("timestamp", VNum (Z.of_N (FileStoreForm.now env)))])].
Proof.
  intros Hread Hh Hp. unfold FileStoreForm.onSubmit. rewrite Hread.
  unfold FileStoreForm.base64_part.
  change ("," ++ payload) with (String (char_of ",") payload).
  rewrite split_on_app, split_on_free by done.
  cbn [lookup list_lookup Calls.added_docs].
  by destruct (FileStoreForm.added env), onSuccess.
Qed.

Lemma stored_file_is_the_payload_of_the_data_url_witness :
  Calls.added_docs (FileStoreForm.onSubmit true store_ready (Some example_upload))
  = [("submissions",
      [("fileName", VStr "diary.txt"); ("fileType", VStr "text/plain");
       ("fileSize", VNum 15); ("fileData", VStr "SSBmZWVsIGhvcGVsZXNz");
       ("timestamp", VNum 1700000000000)])].
Proof.
  apply (stored_file_is_the_payload_of_the_data_url
           true store_ready example_upload "data:text/plain;base64" "SSBmZWVsIGhvcGVsZXNz");
    reflexivity.
Defined.

(** ** The forms and the dashboard *)

Lemma file_store_docs onSuccess env selected c fields :
  In (c, fields) (Calls.added_docs (FileStoreForm.onSubmit onSuccess env selected)) ->
  assoc "fileURL" fields = None.
Proof.
  unfold FileStoreForm.onSubmit.
  destruct selected as [u|]; [ | intros [] ].
  destruct (FileStoreForm.read env) as [d|]; [ | intros [] ].
  destruct (FileStoreForm.added env), onSuccess;
    (intros [[= <- <-]|[]]; reflexivity).
Qed.

Lemma message_docs onSuccess env values c fields :
  In (c, fields) (Calls.added_docs (MessageForm.onSubmit onSuccess env values)) ->
  assoc "fileURL" fields = None.
Proof.
  unfold MessageForm.onSubmit.
  destruct (MessageForm.added env) as [|[msg]], onSuccess;
    (intros [[= <- <-]|[]]; reflexivity).
Qed.

(** X11: a document written by the file form or by the message form has
    no [fileURL], so the dashboard shows neither a preview nor a download
    link for it, whichever file is expanded. *)
Theorem stored_documents_are_never_previewed
    (a b : bool) (fenv : FileStoreForm.Env) (selected : option FileStoreForm.Upload)
    (menv : MessageForm.Env) (values : MessageForm.Values)
    (c : string) (fields : list (string * JsVal))
    (i : string) (s : AdminDashboard.State) :
  In (c, fields)
     (Calls.added_docs (FileStoreForm.onSubmit a fenv selected) ++
      Calls.added_docs (MessageForm.onSubmit b menv values))%list ->
  AdminDashboard.preview s (AdminDashboard.mkSubmission i fields) = AdminDashboard.Hidden /\
  AdminDashboard.download_link (AdminDashboard.mkSubmission i fields) = false.
Proof.
  intros H. assert (assoc "fileURL" fields = None) as Hurl.
  { apply in_app_or in H as [H|H];
      [ by eapply file_store_docs | by eapply message_docs ]. }
  unfold AdminDashboard.preview, AdminDashboard.download_link, AdminDashboard.field.
  cbn [AdminDashboard.data]. rewrite Hurl. cbn [default truthy].
  by rewrite andb_false_r.
Qed.

Lemma stored_documents_are_never_previewed_witness :
  AdminDashboard.preview
    (AdminDashboard.mkState two_files false None (Some "Zk3Qp"))
    (stored_file "Zk3Qp" "diary.txt")
  = AdminDashboard.Hidden /\
  AdminDashboard.download_link (stored_file "Zk3Qp" "diary.txt") = false.
Proof.
  apply (stored_documents_are_never_previewed
           true true store_ready (Some example_upload)
           (MessageForm.mkEnv (Fulfilled tt) 0%N) (MessageForm.mkValues "" "" "")
           "submissions").
  vm_compute. left. reflexivity.
Defined.

(** ** CSVPreview *)

(** X12: the lines of the preview are the first fifty lines of the loaded
    text; the preview is the beginning of the text, and the whole of it
    exactly when the text has fewer than fifty line breaks. *)
Theorem csv_preview_is_the_first_fifty_lines (text : string) (s : CSVPreview.State) :
  let shown := CSVPreview.content (CSVPreview.fetchCSV (Fulfilled (Fulfilled text)) s) in
  split_on newline shown = take 50 (split_on newline text) /\
  (exists rest, text = shown ++ rest) /\
  (shown = text <-> count_char newline text < 50).
Proof.
  cbn [CSVPreview.fetchCSV CSVPreview.content]. unfold CSVPreview.first_lines.
  assert (split_on newline (join (String newline "") (take 50 (split_on newline text)))
          = take 50 (split_on newline text)) as Hlines.
  { apply split_join.
    - pose proof (split_on_not_nil newline text). by destruct (split_on newline text).
    - apply Forall_take, split_on_pieces. }
  split; [ done | split ].
  - destruct (join_take (String newline "") 50 (split_on newline text)) as [rest H].
    exists rest. by rewrite <- H, join_split.
  - split.
    + intros H. rewrite H in Hlines. apply (f_equal length) in Hlines.
      rewrite length_take, split_on_length in Hlines. lia.
    + intros H. rewrite take_ge; [ apply join_split | ].
      rewrite split_on_length. lia.
Qed.

Lemma fetchCSV_error reply s :
  CSVPreview.error s = "Failed to load CSV preview" ->
  CSVPreview.error (CSVPreview.fetchCSV reply s) = "Failed to load CSV preview".
Proof. by destruct reply as [[]|]. Qed.

Lemma run_error replies s :
  CSVPreview.error s = "Failed to load CSV preview" ->
  CSVPreview.error (fold_left (fun s reply => CSVPreview.fetchCSV reply s) replies s)
  = "Failed to load CSV preview".
Proof.
  revert s. induction replies as [|reply replies IH]; intros s H; [ done | ].
  simpl. by apply IH, fetchCSV_error.
Qed.

(** X13: once a load has failed the preview shows the failure, whatever
    is loaded afterwards. *)
Theorem csv_preview_keeps_showing_a_failure
    (before after : list (Settled (Settled string))) (reply : Settled (Settled string)) :
  (forall text, reply <> Fulfilled (Fulfilled text)) ->
  CSVPreview.render (CSVPreview.run (before ++ reply :: after))
  = CSVPreview.ErrorText "Failed to load CSV preview".
Proof.
  intros Hfail. unfold CSVPreview.run, CSVPreview.render.
  rewrite fold_left_app. cbn [fold_left]. rewrite run_error; [ done | ].
  destruct reply as [[text|]|]; [ by destruct (Hfail text) | done | done ].
Qed.

Lemma csv_preview_keeps_showing_a_failure_witness :
  CSVPreview.render
    (CSVPreview.run [Rejected (mkError "Failed to fetch"); Fulfilled (Fulfilled "a,b")])
  = CSVPreview.ErrorText "Failed to load CSV preview".
Proof.
  apply (csv_preview_keeps_showing_a_failure
           [] [Fulfilled (Fulfilled "a,b")] (Rejected (mkError "Failed to fetch"))).
  intros text. discriminate.
Defined.

(** ** AdminDashboard *)

Lemma In_filter_id (target : string) (l : list AdminDashboard.Submission) sub :
  In sub (filter (fun sub => negb (String.eqb (AdminDashboard.id sub) target)) l)
  <-> In sub l /\ AdminDashboard.id sub <> target.
Proof.
  rewrite <- !list_elem_of_In, list_elem_of_filter.
  destruct (String.eqb_spec (AdminDashboard.id sub) target) as [E|E]; simpl; tauto.
Qed.

(** X14: two deletions, each confirmed and carried out before the next
    click, leave exactly the submissions with neither id. *)
Theorem deletions_in_turn_remove_both
    (s : AdminDashboard.State) (a b : string) (sub : AdminDashboard.Submission) :
  let s1 := (AdminDashboard.delete true (Fulfilled tt) s a).1 in
  let s2 := (AdminDashboard.delete true (Fulfilled tt) s1 b).1 in
  In sub (AdminDashboard.submissions s2)
  <-> In sub (AdminDashboard.submissions s) /\
      AdminDashboard.id sub <> a /\ AdminDashboard.id sub <> b.
Proof.
  cbn. rewrite !In_filter_id. tauto.
Qed.

(** X15: of two deletions started from the same rendered list, the one
    that ends last puts the submission of the other back on the page,
    although its document has been deleted. *)
Theorem overlapping_deletions_bring_a_submission_back
    (rendered : list AdminDashboard.Submission) (s : AdminDashboard.State)
    (a b : string) (sub : AdminDashboard.Submission) :
  In sub rendered -> AdminDashboard.id sub = a -> a <> b ->
  let first := AdminDashboard.handleDelete true (Fulfilled tt) rendered s a in
  let second := AdminDashboard.handleDelete true (Fulfilled tt) rendered first.1 b in
  In (Calls.DeleteDoc "submissions" a) first.2 /\
  ~ In sub (AdminDashboard.submissions first.1) /\
  In sub (AdminDashboard.submissions second.1).
Proof.
  intros Hin Hid Hne. cbn. rewrite !In_filter_id.
  split; [ auto | split ]; [ tauto | split; congruence ].
Qed.

Lemma overlapping_deletions_bring_a_submission_back_witness :
  let first :=
    AdminDashboard.handleDelete true (Fulfilled tt) two_files example_page "Zk3Qp" in
  let second :=
    AdminDashboard.handleDelete true (Fulfilled tt) two_files first.1 "Ab7Xy" in
  In (Calls.DeleteDoc "submissions" "Zk3Qp") first.2 /\
  ~ In (stored_file "Zk3Qp" "diary.txt") (AdminDashboard.submissions first.1) /\
  In (stored_file "Zk3Qp" "diary.txt") (AdminDashboard.submissions second.1).
Proof.
  apply (overlapping_deletions_bring_a_submission_back
           two_files example_page "Zk3Qp" "Ab7Xy" (stored_file "Zk3Qp" "diary.txt"));
    [ simpl; auto | reflexivity | discriminate ].
Defined.

